(** * The Singularity device plugin (pkg/server/device/device.go)

    A shallow embedding of [SingularityDevicePlugin]: its constructor, its
    [Shutdown], the streaming handler [ListAndWatch], [Allocate] and the
    snapshot helper [listK8sDevices], followed by the properties of the
    design document that concern them.

    Go maps are finite maps ([gmap]); a nil [*nvml.Device] read from the
    device map is the [None] of a lookup; the [done] channel is its state
    (open or closed); a Go panic is an outcome of its own.  Collaborators
    that live outside the file (NVML, the path resolver, the gRPC stream,
    the GPU monitor) are inputs of the model. *)

From stdpp Require Import base option list gmap strings sets fin_maps.

Local Open Scope string_scope.
Local Open Scope list_scope.

(** ** Data of the collaborating packages *)

Module nvml.

(** The two fields of [nvml.Device] the plugin reads. *)
Record Device := { UUID : string; Path : string }.

End nvml.

Module codes.

(** The gRPC status codes the file uses. *)
Inductive Code := Unknown | Internal.

Definition String (c : Code) : string :=
  match c with
  | Unknown => "Unknown"
  | Internal => "Internal"
  end.

End codes.

Module k8sDP.

(** The health strings of the device plugin API (v1beta1 constants). *)
Definition Healthy : string := "Healthy".
Definition Unhealthy : string := "Unhealthy".

Record Device := { ID : string; Health : string }.

Record Mount := {
  mount_ContainerPath : string;
  mount_HostPath : string;
  ReadOnly : bool }.

Record DeviceSpec := {
  spec_ContainerPath : string;
  spec_HostPath : string;
  Permissions : string }.

Record ContainerAllocateRequest := { DevicesIDs : list string }.

Record AllocateRequest := { ContainerRequests : list ContainerAllocateRequest }.

Record ContainerAllocateResponse := {
  Mounts : list Mount;
  Devices : list DeviceSpec }.

Record AllocateResponse := { ContainerResponses : list ContainerAllocateResponse }.

(** [DevicePluginOptions{}] and [PreStartContainerResponse{}]. *)
Record DevicePluginOptions := { PreStartRequired : bool }.

Inductive PreStartContainerResponse := EmptyPreStartContainerResponse.

End k8sDP.

(** ** Errors *)

(** Go error values.  The two package-level sentinels are values with an
    identity of their own; [fmt_Errorf] and [status_Errorf] are the errors
    built in place; [foreign] is an error handed over by a collaborator. *)
Inductive error :=
| ErrNoGPUs
| ErrUnableToLoad
| fmt_Errorf (msg : string)
| status_Errorf (c : codes.Code) (msg : string)
| foreign (msg : string).

(** The text of [err.Error()], which is what the verb %v prints. *)
Definition Error (e : error) : string :=
  match e with
  | ErrNoGPUs => "GPUs are not found on this host"
  | ErrUnableToLoad =>
      "unable to load: check libnvidia-ml.so.1 library and graphic drivers"
  | fmt_Errorf msg => msg
  | status_Errorf c msg =>
      ("rpc error: code = " ++ codes.String c ++ " desc = " ++ msg)%string
  | foreign msg => msg
  end.

(** The status code carried by an error, if it is a gRPC status. *)
Definition status_Code (e : error) : option codes.Code :=
  match e with
  | status_Errorf c _ => Some c
  | _ => None
  end.

(** ** The plugin and the world around it *)

Inductive chan := chan_open | chan_closed.

(** The struct.  [unhealthyDev] is the receiving end of the monitor's
    channel: what arrives on it is an input of [ListAndWatch]. *)
Record SingularityDevicePlugin := {
  devices : gmap string nvml.Device;
  hospital : gmap string string;
  confDir : string;
  done : chan }.

(** What the plugin does to the outside, in the order it does it. *)
Inductive effect :=
| eff_nvml_Init
| eff_close_done
| eff_nvml_Shutdown
| eff_Send (devList : list k8sDP.Device).

(** The receiver object together with the log of outside effects. *)
Record World := { this : SingularityDevicePlugin; trace : list effect }.

(** The collaborators' answers.  [getDevices] and [monitorGPUs] are
    functions of the package kept in another file; the others belong to
    other packages. *)
Record Env := {
  RuntimeName : string;
  exec_LookPath : option error;
  BuildConfig : string + error;
  nvml_Init : option error;
  nvml_GetDriverVersion : string + error;
  getDevices : list nvml.Device + error;
  monitorGPUs : list string -> option error;
  nvml_Shutdown : option error;
  nvidia_Paths : string -> (list string * list string) + error;
  nvidia_Devices : list string + error }.

(** ** A monad for method bodies: state and panics *)

Inductive exec (A : Type) :=
| Return (a : A)
| Panic (msg : string).

Arguments Return {A} a.
Arguments Panic {A} msg.

Definition Go (A : Type) : Type := World -> exec A * World.

Definition ret {A} (a : A) : Go A := fun w => (Return a, w).

Definition bind {A B} (m : Go A) (k : A -> Go B) : Go B :=
  fun w =>
    match m w with
    | (Return a, w') => k a w'
    | (Panic msg, w') => (Panic msg, w')
    end.

Definition panic {A} (msg : string) : Go A := fun w => (Panic msg, w).

Definition get_this : Go SingularityDevicePlugin := fun w => (Return (this w), w).

Definition emit (e : effect) : Go unit :=
  fun w => (Return tt, {| this := this w; trace := trace w ++ [e] |}).

Definition modify_this (f : SingularityDevicePlugin -> SingularityDevicePlugin) : Go unit :=
  fun w => (Return tt, {| this := f (this w); trace := trace w |}).

Declare Scope go_scope.
Delimit Scope go_scope with go.

Notation "'let*' x ':=' m 'in' k" := (bind m (fun x => k))
  (at level 10, x name, m at level 100, k at level 200, only parsing) : go_scope.
Notation "m ;; k" := (bind m (fun _ => k))
  (at level 100, k at level 200, right associativity, only parsing) : go_scope.

Local Open Scope go_scope.

(** The messages of the two runtime panics the file can raise. *)
Definition nil_dereference : string :=
  "runtime error: invalid memory address or nil pointer dereference".
Definition close_of_closed_channel : string := "close of closed channel".

(** ** Field updates *)

Definition set_hospital (h : gmap string string) (dp : SingularityDevicePlugin)
  : SingularityDevicePlugin :=
  {| devices := devices dp; hospital := h; confDir := confDir dp; done := done dp |}.

Definition set_done (c : chan) (dp : SingularityDevicePlugin)
  : SingularityDevicePlugin :=
  {| devices := devices dp; hospital := hospital dp; confDir := confDir dp; done := c |}.

(** [close(dp.done)]: closing a closed channel panics. *)
Definition close_done : Go unit :=
  let* dp := get_this in
  match done dp with
  | chan_closed => panic close_of_closed_channel
  | chan_open => modify_this (set_done chan_closed) ;; emit eff_close_done
  end.

(** ** Shutdown *)

Definition Shutdown (env : Env) : Go (option error) :=
  close_done ;;
  emit eff_nvml_Shutdown ;;
  ret (nvml_Shutdown env).

(** ** GetDevicePluginOptions and PreStartContainer *)

Definition GetDevicePluginOptions : Go (option k8sDP.DevicePluginOptions * option error) :=
  ret (Some {| k8sDP.PreStartRequired := false |}, None).

Definition PreStartContainer : Go (option k8sDP.PreStartContainerResponse * option error) :=
  ret (Some k8sDP.EmptyPreStartContainerResponse, None).

(** ** listK8sDevices *)

(** One entry per key of the health map.  Go ranges over a map in an order
    it does not fix; the order of [map_to_list] stands for it, and no
    property below depends on it. *)
Definition listK8sDevices (dp : SingularityDevicePlugin) : list k8sDP.Device :=
  (fun kv => {| k8sDP.ID := kv.1; k8sDP.Health := kv.2 |}) <$> map_to_list (hospital dp).

(** ** ListAndWatch *)

(** The stream handed to the handler: [srv n] is what the call number [n]
    (from 0) of [srv.Send] returns, [None] for a nil error. *)
Definition ListAndWatchServer : Type := nat -> option error.

Definition Send (srv : ListAndWatchServer) (n : nat) (devList : list k8sDP.Device)
  : Go (option error) :=
  emit (eff_Send devList) ;; ret (srv n).

(** The case a [select] of the loop takes: the Go scheduler and the two
    channels decide it, so the handler receives the choices as a list.
    [recv_done] is the case [<-dp.done], ready once the channel has been
    closed, by a Shutdown that ran before the handler or runs beside it in
    another goroutine; the handler itself never writes [dp.done].
    [recv_unhealthyDev] carries the id read from [dp.unhealthyDev]. *)
Inductive select_case :=
| recv_done
| recv_unhealthyDev (devID : string).

(** How far the handler got on the choices it was given: it returned, or
    it is still blocked in the [select]. *)
Inductive watch_result :=
| still_waiting
| returned (err : option error).

(** [dp.hospital[devID] = k8sDP.Unhealthy]: a map assignment, which adds
    the key when it is absent. *)
Definition mark_unhealthy (devID : string) (dp : SingularityDevicePlugin)
  : SingularityDevicePlugin :=
  set_hospital (<[devID := k8sDP.Unhealthy]> (hospital dp)) dp.

Fixpoint watch_loop (srv : ListAndWatchServer) (n : nat) (cases : list select_case)
  : Go watch_result :=
  match cases with
  | [] => ret still_waiting
  | recv_done :: _ => ret (returned None)
  | recv_unhealthyDev devID :: cases' =>
      modify_this (mark_unhealthy devID) ;;
      let* dp := get_this in
      let* err := Send srv n (listK8sDevices dp) in
      match err with
      | Some e =>
          ret (returned (Some (status_Errorf codes.Unknown
                 ("could not send updated devices state: " ++ Error e))))
      | None => watch_loop srv (S n) cases'
      end
  end.

Definition ListAndWatch (srv : ListAndWatchServer) (cases : list select_case)
  : Go watch_result :=
  let* dp := get_this in
  let devList := listK8sDevices dp in
  let* err := Send srv 0 devList in
  match err with
  | Some e =>
      ret (returned (Some (status_Errorf codes.Unknown
             ("could not send initial devices state: " ++ Error e))))
  | None => watch_loop srv 1 cases
  end.

(** ** Allocate *)

(** The two loops that fill [nvidiaMounts]. *)
Fixpoint append_mounts (paths : list string) (nvidiaMounts : list k8sDP.Mount)
  : list k8sDP.Mount :=
  match paths with
  | [] => nvidiaMounts
  | p :: paths' =>
      append_mounts paths'
        (nvidiaMounts ++ [ {| k8sDP.mount_ContainerPath := p;
                              k8sDP.mount_HostPath := p;
                              k8sDP.ReadOnly := true |} ])
  end.

(** The loop over [nvDevs]. *)
Fixpoint append_nvDevs (nvDevs : list string) (nvidiaDevices : list k8sDP.DeviceSpec)
  : list k8sDP.DeviceSpec :=
  match nvDevs with
  | [] => nvidiaDevices
  | nvDev :: nvDevs' =>
      append_nvDevs nvDevs'
        (nvidiaDevices ++ [ {| k8sDP.spec_ContainerPath := nvDev;
                               k8sDP.spec_HostPath := nvDev;
                               k8sDP.Permissions := "rw" |} ])
  end.

(** The loop over [allocateRequest.DevicesIDs].  [dp.devices[devID]] of a
    missing key is a nil pointer, and [device.Path] on it panics. *)
Fixpoint append_devIDs (devIDs : list string) (nvidiaDevices : list k8sDP.DeviceSpec)
  : Go (list k8sDP.DeviceSpec) :=
  match devIDs with
  | [] => ret nvidiaDevices
  | devID :: devIDs' =>
      let* dp := get_this in
      match devices dp !! devID with
      | None => panic nil_dereference
      | Some device =>
          append_devIDs devIDs'
            (nvidiaDevices ++ [ {| k8sDP.spec_ContainerPath := nvml.Path device;
                                   k8sDP.spec_HostPath := nvml.Path device;
                                   k8sDP.Permissions := "rw" |} ])
      end
  end.

(** The loop over [req.ContainerRequests]. *)
Fixpoint append_responses (nvDevs : list string) (nvidiaMounts : list k8sDP.Mount)
    (reqs : list k8sDP.ContainerAllocateRequest)
    (allocateResponses : list k8sDP.ContainerAllocateResponse)
  : Go (list k8sDP.ContainerAllocateResponse) :=
  match reqs with
  | [] => ret allocateResponses
  | allocateRequest :: reqs' =>
      let* nvidiaDevices :=
        append_devIDs (k8sDP.DevicesIDs allocateRequest) (append_nvDevs nvDevs []) in
      append_responses nvDevs nvidiaMounts reqs'
        (allocateResponses ++ [ {| k8sDP.Mounts := nvidiaMounts;
                                   k8sDP.Devices := nvidiaDevices |} ])
  end.

Definition Allocate (env : Env) (req : k8sDP.AllocateRequest)
  : Go (option k8sDP.AllocateResponse * option error) :=
  let* dp := get_this in
  match nvidia_Paths env (confDir dp) with
  | inr err =>
      ret (None, Some (status_Errorf codes.Internal
                         ("could not search NVIDIA files: " ++ Error err)))
  | inl (nvLibs, nvBins) =>
      match nvidia_Devices env with
      | inr err =>
          ret (None, Some (status_Errorf codes.Internal
                 ("could not search NVIDIA complementary devices: " ++ Error err)))
      | inl nvDevs =>
          let nvidiaMounts := append_mounts nvBins (append_mounts nvLibs []) in
          let* allocateResponses :=
            append_responses nvDevs nvidiaMounts (k8sDP.ContainerRequests req) [] in
          ret (Some {| k8sDP.ContainerResponses := allocateResponses |}, None)
      end
  end.

(** ** NewSingularityDevicePlugin *)

(** The loop that fills the two maps. *)
Definition register_device (dp : SingularityDevicePlugin) (dev : nvml.Device)
  : SingularityDevicePlugin :=
  {| devices := <[nvml.UUID dev := dev]> (devices dp);
     hospital := <[nvml.UUID dev := k8sDP.Healthy]> (hospital dp);
     confDir := confDir dp;
     done := done dp |}.

Definition register_devices (devs : list nvml.Device) (dp : SingularityDevicePlugin)
  : SingularityDevicePlugin :=
  foldl register_device dp devs.

(** The part of the constructor that runs under the deferred function.
    It yields the values returned together with the value the variable
    [err] holds at that return, which is what the deferred function
    tests. *)
Definition construct (env : Env)
  : Go ((option SingularityDevicePlugin * option error) * option error) :=
  match nvml_GetDriverVersion env with
  | inr err => ret ((None, Some ErrUnableToLoad), Some err)
  | inl _ =>
      match getDevices env with
      | inr err =>
          ret ((None, Some (fmt_Errorf
                  ("could not get available devices: " ++ Error err))), Some err)
      | inl devs =>
          if decide (length devs = 0) then ret ((None, Some ErrNoGPUs), None)
          else
            modify_this (register_devices devs) ;;
            match monitorGPUs env (nvml.UUID <$> devs) with
            | Some err =>
                ret ((None, Some (fmt_Errorf
                        ("could not start GPU monitoring: " ++ Error err))), Some err)
            | None =>
                let* dp := get_this in
                ret ((Some dp, None), None)
            end
      end
  end.

(** The result is what the caller receives and the effects performed; on
    success the plugin returned is the receiver of the later calls. *)
Definition NewSingularityDevicePlugin (env : Env)
  : exec (option SingularityDevicePlugin * option error) * list effect :=
  match exec_LookPath env with
  | Some err =>
      (Return (None, Some (fmt_Errorf
         ("could not find " ++ RuntimeName env ++ " on this machine: " ++ Error err))), [])
  | None =>
      match BuildConfig env with
      | inr err =>
          (Return (None, Some (fmt_Errorf
             ("could not get build config: " ++ Error err))), [])
      | inl SingularityConfdir =>
          match nvml_Init env with
          | Some _ => (Return (None, Some ErrUnableToLoad), [eff_nvml_Init])
          | None =>
              let dp := {| devices := ∅; hospital := ∅;
                           confDir := SingularityConfdir; done := chan_open |} in
              let run :=
                (let* r := construct env in
                 match r.2 with
                 | Some _ => Shutdown env ;; ret r.1
                 | None => ret r.1
                 end) {| this := dp; trace := [eff_nvml_Init] |} in
              (run.1, trace run.2)
          end
      end
  end.

(** ** The plugin in service *)

(** The calls the plugin receives once it is built. *)
Inductive call :=
| call_Shutdown
| call_GetDevicePluginOptions
| call_ListAndWatch (srv : ListAndWatchServer) (cases : list select_case)
| call_Allocate (req : k8sDP.AllocateRequest)
| call_PreStartContainer.

Definition run_call (env : Env) (c : call) : Go unit :=
  match c with
  | call_Shutdown => Shutdown env ;; ret tt
  | call_GetDevicePluginOptions => GetDevicePluginOptions ;; ret tt
  | call_ListAndWatch srv cases => ListAndWatch srv cases ;; ret tt
  | call_Allocate req => Allocate env req ;; ret tt
  | call_PreStartContainer => PreStartContainer ;; ret tt
  end.

(** Calls one after the other; a panic ends the process. *)
Fixpoint run_calls (env : Env) (cs : list call) : Go unit :=
  match cs with
  | [] => ret tt
  | c :: cs' => run_call env c ;; run_calls env cs'
  end.

(** The ids the monitor delivers to a handler. *)
Definition notified (cases : list select_case) : list string :=
  omap (fun c => match c with
                 | recv_done => None
                 | recv_unhealthyDev devID => Some devID
                 end) cases.

Definition call_notified (c : call) : list string :=
  match c with
  | call_ListAndWatch _ cases => notified cases
  | _ => []
  end.

(** ** Reading a run *)

(** The messages a trace shows as sent. *)
Definition sends (tr : list effect) : list (list k8sDP.Device) :=
  omap (fun e => match e with
                 | eff_Send devList => Some devList
                 | _ => None
                 end) tr.

(** The messages a computation adds to the trace of the world it starts in. *)
Definition sent_in {A} (m : Go A) (w : World) : list (list k8sDP.Device) :=
  sends (drop (length (trace w)) (trace (m w).2)).

(** How often a trace closes [dp.done]. *)
Fixpoint closes (tr : list effect) : nat :=
  match tr with
  | [] => 0
  | eff_close_done :: tr' => S (closes tr')
  | _ :: tr' => closes tr'
  end.

(** The ids of the entries of a message that are reported Unhealthy. *)
Definition unhealthy_set (devList : list k8sDP.Device) : gset string :=
  list_to_set (k8sDP.ID <$> filter (fun d => k8sDP.Health d = k8sDP.Unhealthy) devList).

(** A message is a snapshot of a health map when it has one entry per key,
    carrying the status the map holds for it. *)
Definition snapshot_of (h : gmap string string) (devList : list k8sDP.Device) : Prop :=
  NoDup (k8sDP.ID <$> devList) ∧
  ∀ id s, {| k8sDP.ID := id; k8sDP.Health := s |} ∈ devList ↔ h !! id = Some s.

(** A message is full for a registry when every known device has exactly
    one entry in it. *)
Definition full_snapshot (devs : gmap string nvml.Device) (devList : list k8sDP.Device)
  : Prop :=
  NoDup (k8sDP.ID <$> devList) ∧
  ∀ id, id ∈ dom devs → ∃ s, {| k8sDP.ID := id; k8sDP.Health := s |} ∈ devList.

(** Notifications applied one after the other. *)
Definition marks (ids : list string) (dp : SingularityDevicePlugin)
  : SingularityDevicePlugin :=
  foldl (fun dp devID => mark_unhealthy devID dp) dp ids.

(** The snapshots that follow each of them. *)
Fixpoint snapshots (dp : SingularityDevicePlugin) (ids : list string)
  : list (list k8sDP.Device) :=
  match ids with
  | [] => []
  | devID :: ids' =>
      listK8sDevices (mark_unhealthy devID dp) :: snapshots (mark_unhealthy devID dp) ids'
  end.

(** The notifications the loop gets to apply: those before the first
    [recv_done], up to and including the one whose send fails. *)
Fixpoint consumed (srv : ListAndWatchServer) (n : nat) (cases : list select_case)
  : list string :=
  match cases with
  | recv_unhealthyDev devID :: cases' =>
      devID :: match srv n with
               | Some _ => []
               | None => consumed srv (S n) cases'
               end
  | _ => []
  end.

Definition applied (srv : ListAndWatchServer) (cases : list select_case) : list string :=
  match srv 0 with
  | Some _ => []
  | None => consumed srv 1 cases
  end.

(** ** What the specification asks of Allocate, in its own words *)

Definition read_only_mount (p : string) : k8sDP.Mount :=
  {| k8sDP.mount_ContainerPath := p; k8sDP.mount_HostPath := p; k8sDP.ReadOnly := true |}.

Definition rw_device (p : string) : k8sDP.DeviceSpec :=
  {| k8sDP.spec_ContainerPath := p; k8sDP.spec_HostPath := p; k8sDP.Permissions := "rw" |}.

(** The host paths the registry records for a list of ids. *)
Definition registry_paths (devs : gmap string nvml.Device) (ids paths : list string)
  : Prop :=
  Forall2 (fun id p => ∃ device, devs !! id = Some device ∧ nvml.Path device = p) ids paths.

(** The response entry owed to one container request. *)
Definition answers (devs : gmap string nvml.Device) (nvLibs nvBins nvDevs : list string)
    (r : k8sDP.ContainerAllocateRequest) (cr : k8sDP.ContainerAllocateResponse) : Prop :=
  k8sDP.Mounts cr = (read_only_mount <$> nvLibs) ++ (read_only_mount <$> nvBins) ∧
  ∃ paths, registry_paths devs (k8sDP.DevicesIDs r) paths ∧
           k8sDP.Devices cr = (rw_device <$> nvDevs) ++ (rw_device <$> paths).

(** ** A host with two GPUs *)

Definition example_env : Env := {|
  RuntimeName := "singularity";
  exec_LookPath := None;
  BuildConfig := inl "/usr/local/etc/singularity";
  nvml_Init := None;
  nvml_GetDriverVersion := inl "440.33.01";
  getDevices := inl [ {| nvml.UUID := "gpu-0"; nvml.Path := "/dev/nvidia0" |};
                      {| nvml.UUID := "gpu-1"; nvml.Path := "/dev/nvidia1" |} ];
  monitorGPUs := fun _ => None;
  nvml_Shutdown := None;
  nvidia_Paths := fun _ => inl (["/usr/lib/libcuda.so.1"], ["/usr/bin/nvidia-smi"]);
  nvidia_Devices := inl ["/dev/nvidiactl"] |}.

(** The plugin the constructor returns on that host. *)
Definition example_plugin : SingularityDevicePlugin :=
  register_devices
    [ {| nvml.UUID := "gpu-0"; nvml.Path := "/dev/nvidia0" |};
      {| nvml.UUID := "gpu-1"; nvml.Path := "/dev/nvidia1" |} ]
    {| devices := ∅; hospital := ∅;
       confDir := "/usr/local/etc/singularity"; done := chan_open |}.

Definition example_world : World :=
  {| this := example_plugin; trace := [eff_nvml_Init] |}.

(** A stream whose every send succeeds, and one whose every send fails. *)
Definition healthy_stream : ListAndWatchServer := fun _ => None.
Definition broken_stream : ListAndWatchServer := fun _ => Some (foreign "transport is closing").

(** ** Invariants of the plugin in service *)

(** The trace closes the channel as often as the channel's state tells. *)
Definition closes_agree (w : World) : Prop :=
  closes (trace w) = match done (this w) with chan_open => 0 | chan_closed => 1 end.

(** A later state of the same plugin: the device map and the configuration
    directory are the same, the health map has had notifications applied,
    and the trace still agrees with the channel. *)
Definition evolves (allowed : list string) (w w' : World) : Prop :=
  devices (this w') = devices (this w) ∧
  confDir (this w') = confDir (this w) ∧
  (∃ ids, ids ⊆ allowed ∧ hospital (this w') = hospital (marks ids (this w))) ∧
  (closes_agree w → closes_agree w').

(** ** The ways out of the handler *)

(** The loop, whose next send is number [n], sees the closed [dp.done]:
    the choices start with notifications whose sends all succeed, and then
    comes [recv_done]. *)
Definition loop_done (srv : ListAndWatchServer) (n : nat) (cases : list select_case)
  : Prop :=
  ∃ ids rest,
    cases = (recv_unhealthyDev <$> ids) ++ recv_done :: rest ∧
    ∀ k, k < length ids → srv (n + k) = None.

(** The loop meets a failing send: after notifications whose sends succeed
    comes one whose send returns the error [e']. *)
Definition loop_failed (srv : ListAndWatchServer) (n : nat) (cases : list select_case)
    (e' : error) : Prop :=
  ∃ ids devID rest,
    cases = (recv_unhealthyDev <$> ids) ++ recv_unhealthyDev devID :: rest ∧
    (∀ k, k < length ids → srv (n + k) = None) ∧
    srv (n + length ids) = Some e'.

(** The same for the handler: the initial send is number 0, the loop
    starts at send number 1. *)
Definition done_observed (srv : ListAndWatchServer) (cases : list select_case) : Prop :=
  srv 0 = None ∧ loop_done srv 1 cases.

Definition send_failed (srv : ListAndWatchServer) (cases : list select_case)
    (e' : error) : Prop :=
  srv 0 = Some e' ∨ (srv 0 = None ∧ loop_failed srv 1 cases e').

(** ** Hosts and streams of the examples *)

(** A stream whose send number [k] fails and whose other sends succeed. *)
Definition stream_failing_at (k : nat) : ListAndWatchServer :=
  fun n => if decide (n = k) then Some (foreign "transport is closing") else None.

Definition env_without_driver : Env := {|
  RuntimeName := "singularity";
  exec_LookPath := None;
  BuildConfig := inl "/usr/local/etc/singularity";
  nvml_Init := Some (foreign "could not load NVML library");
  nvml_GetDriverVersion := inr (foreign "uninitialized");
  getDevices := inr (foreign "uninitialized");
  monitorGPUs := fun _ => None;
  nvml_Shutdown := None;
  nvidia_Paths := fun _ => inl ([], []);
  nvidia_Devices := inl [] |}.

Definition env_without_GPUs : Env := {|
  RuntimeName := "singularity";
  exec_LookPath := None;
  BuildConfig := inl "/usr/local/etc/singularity";
  nvml_Init := None;
  nvml_GetDriverVersion := inl "440.33.01";
  getDevices := inl [];
  monitorGPUs := fun _ => None;
  nvml_Shutdown := None;
  nvidia_Paths := fun _ => inl ([], []);
  nvidia_Devices := inl [] |}.

(** A day of calls on the two-GPU host. *)
Definition example_calls : list call :=
  [ call_GetDevicePluginOptions;
    call_ListAndWatch healthy_stream [recv_unhealthyDev "gpu-1"; recv_unhealthyDev "gpu-1"];
    call_Allocate {| k8sDP.ContainerRequests := [ {| k8sDP.DevicesIDs := ["gpu-0"] |} ] |};
    call_PreStartContainer;
    call_ListAndWatch broken_stream [recv_unhealthyDev "gpu-0"];
    call_Shutdown ].

(** ** Words for the properties of the constructor and of runs *)

(** The struct as the constructor first builds it. *)
Definition fresh_plugin (SingularityConfdir : string) : SingularityDevicePlugin :=
  {| devices := ∅; hospital := ∅; confDir := SingularityConfdir; done := chan_open |}.

(** Every collaborator lets the constructor through: the runtime is found,
    the configuration read, NVML initialised, the driver version reported,
    at least one device enumerated, and the monitor started on the ids of
    the devices enumerated. *)
Definition collaborators_ready (env : Env) (SingularityConfdir : string)
    (devs : list nvml.Device) : Prop :=
  exec_LookPath env = None ∧
  BuildConfig env = inl SingularityConfdir ∧
  nvml_Init env = None ∧
  (∃ v, nvml_GetDriverVersion env = inl v) ∧
  getDevices env = inl devs ∧
  devs ≠ [] ∧
  monitorGPUs env (nvml.UUID <$> devs) = None.

(** A collaborator consulted after [nvml.Init] returns an error: the
    driver version, the enumeration, or the start of the monitor. *)
Definition fails_after_Init (env : Env) : Prop :=
  (∃ e, nvml_GetDriverVersion env = inr e) ∨
  ((∃ v, nvml_GetDriverVersion env = inl v) ∧
   ((∃ e, getDevices env = inr e) ∨
    (∃ devs e, getDevices env = inl devs ∧ devs ≠ [] ∧
               monitorGPUs env (nvml.UUID <$> devs) = Some e))).

(** The calls that write to the plugin or to the outside. *)
Definition mutating (c : call) : bool :=
  match c with
  | call_Shutdown | call_ListAndWatch _ _ => true
  | call_GetDevicePluginOptions | call_Allocate _ | call_PreStartContainer => false
  end.

(** The devices of an enumeration that carry a given UUID. *)
Definition with_UUID (id : string) (devs : list nvml.Device) : list nvml.Device :=
  filter (fun dev => nvml.UUID dev = id) devs.

(** A host whose driver answers but whose enumeration fails. *)
Definition env_enumeration_fails : Env := {|
  RuntimeName := "singularity";
  exec_LookPath := None;
  BuildConfig := inl "/usr/local/etc/singularity";
  nvml_Init := None;
  nvml_GetDriverVersion := inl "440.33.01";
  getDevices := inr (foreign "could not get device count");
  monitorGPUs := fun _ => None;
  nvml_Shutdown := None;
  nvidia_Paths := fun _ => inl ([], []);
  nvidia_Devices := inl [] |}.

(** The two devices of the two-GPU host. *)
Definition gpu_0 : nvml.Device := {| nvml.UUID := "gpu-0"; nvml.Path := "/dev/nvidia0" |}.
Definition gpu_1 : nvml.Device := {| nvml.UUID := "gpu-1"; nvml.Path := "/dev/nvidia1" |}.

(** The container request that asks for the given devices by their UUIDs. *)
Definition request_for (picked : list nvml.Device) : k8sDP.ContainerAllocateRequest :=
  {| k8sDP.DevicesIDs := nvml.UUID <$> picked |}.

(** The response entry that hands the given devices over. *)
Definition response_for (nvLibs nvBins nvDevs : list string) (picked : list nvml.Device)
  : k8sDP.ContainerAllocateResponse :=
  {| k8sDP.Mounts := (read_only_mount <$> nvLibs) ++ (read_only_mount <$> nvBins);
     k8sDP.Devices := (rw_device <$> nvDevs) ++ (rw_device <$> (nvml.Path <$> picked)) |}.

(** * Properties *)

(** ** The monad *)

Lemma bind_Return {A B} (m : Go A) (k : A -> Go B) w a w' :
  m w = (Return a, w') → bind m k w = k a w'.
Proof. intros H. unfold bind. by rewrite H. Qed.

Lemma bind_Panic {A B} (m : Go A) (k : A -> Go B) w msg w' :
  m w = (Panic msg, w') → bind m k w = (Panic msg, w').
Proof. intros H. unfold bind. by rewrite H. Qed.

(** ** The constructor's example *)

Lemma example_constructed :
  NewSingularityDevicePlugin example_env = (Return (Some example_plugin, None), [eff_nvml_Init]).
Proof. reflexivity. Qed.

(** ** Snapshots *)

Lemma elem_of_listK8sDevices dp id s :
  {| k8sDP.ID := id; k8sDP.Health := s |} ∈ listK8sDevices dp ↔ hospital dp !! id = Some s.
Proof.
  unfold listK8sDevices. rewrite list_elem_of_fmap. split.
  - intros [[k v] [Heq Hin]]. simpl in Heq. inversion Heq; subst.
    by apply elem_of_map_to_list in Hin.
  - intros Hl. exists (id, s). split; [done|]. by apply elem_of_map_to_list.
Qed.

Lemma listK8sDevices_IDs dp :
  k8sDP.ID <$> listK8sDevices dp = (map_to_list (hospital dp)).*1.
Proof. unfold listK8sDevices. rewrite <- list_fmap_compose. done. Qed.

Lemma listK8sDevices_snapshot dp : snapshot_of (hospital dp) (listK8sDevices dp).
Proof.
  split.
  - rewrite listK8sDevices_IDs. apply NoDup_fst_map_to_list.
  - intros id s. apply elem_of_listK8sDevices.
Qed.

Lemma snapshot_full devs h devList :
  dom devs ⊆ dom h → snapshot_of h devList → full_snapshot devs devList.
Proof.
  intros Hsub [Hnd Hin]. split; [done|].
  intros id Hid. apply Hsub, elem_of_dom in Hid as [s Hs].
  exists s. by apply Hin.
Qed.

Lemma unhealthy_set_spec dp id :
  id ∈ unhealthy_set (listK8sDevices dp) ↔ hospital dp !! id = Some k8sDP.Unhealthy.
Proof.
  unfold unhealthy_set. rewrite elem_of_list_to_set, list_elem_of_fmap. split.
  - intros [[i s] [-> Hin]]. apply list_elem_of_filter in Hin as [Hs Hin].
    simpl in *. subst s. by apply elem_of_listK8sDevices.
  - intros Hl. exists {| k8sDP.ID := id; k8sDP.Health := k8sDP.Unhealthy |}.
    split; [done|]. apply list_elem_of_filter. split; [done|].
    by apply elem_of_listK8sDevices.
Qed.

(** ** Marking devices unhealthy *)

Lemma marks_cons id ids dp : marks (id :: ids) dp = marks ids (mark_unhealthy id dp).
Proof. reflexivity. Qed.

Lemma marks_app ids1 ids2 dp : marks (ids1 ++ ids2) dp = marks ids2 (marks ids1 dp).
Proof. unfold marks. apply foldl_app. Qed.

Lemma marks_frame ids dp :
  devices (marks ids dp) = devices dp ∧
  confDir (marks ids dp) = confDir dp ∧
  done (marks ids dp) = done dp.
Proof.
  revert dp. induction ids as [|id ids IH]; intros dp; [done|].
  rewrite marks_cons. destruct (IH (mark_unhealthy id dp)) as (-> & -> & ->). done.
Qed.

Lemma marks_lookup ids dp id :
  hospital (marks ids dp) !! id =
    if decide (id ∈ ids) then Some k8sDP.Unhealthy else hospital dp !! id.
Proof.
  revert dp. induction ids as [|i ids IH]; intros dp.
  - rewrite decide_False by apply not_elem_of_nil. done.
  - rewrite marks_cons, IH. simpl.
    destruct (decide (id ∈ ids)) as [Hin|Hnin].
    + rewrite decide_True; [done|by right].
    + destruct (decide (id = i)) as [->|Hne].
      * rewrite decide_True; [|by left]. apply lookup_insert_eq.
      * rewrite decide_False; [by apply lookup_insert_ne|].
        intros Hc. apply elem_of_cons in Hc as [?|?]; done.
Qed.

Lemma marks_dom ids dp :
  dom (hospital (marks ids dp)) = dom (hospital dp) ∪ list_to_set ids.
Proof.
  apply set_eq. intros id.
  rewrite elem_of_union, elem_of_list_to_set, !elem_of_dom, marks_lookup.
  destruct (decide (id ∈ ids)) as [Hin|Hnin]; split.
  - by right.
  - by eexists.
  - by left.
  - by intros [?|?].
Qed.

Lemma mark_unhealthy_idempotent id dp :
  hospital dp !! id = Some k8sDP.Unhealthy → mark_unhealthy id dp = dp.
Proof.
  intros H. destruct dp as [d h c o]. unfold mark_unhealthy, set_hospital. simpl in *.
  f_equal. by apply insert_id.
Qed.

(** ** The watch loop *)

Arguments listK8sDevices : simpl never.
Arguments mark_unhealthy : simpl never.
Arguments marks : simpl never.

(** Runs the monad's plumbing on the goal. *)
Ltac go_run :=
  repeat (unfold Send, close_done;
          unfold bind, modify_this, get_this, emit, ret, panic;
          cbn [fst snd this trace]).

Lemma sends_app tr1 tr2 : sends (tr1 ++ tr2) = sends tr1 ++ sends tr2.
Proof. unfold sends. apply omap_app. Qed.

Lemma sends_eff_Send msgs : sends (eff_Send <$> msgs) = msgs.
Proof. induction msgs as [|m msgs IH]; [done|]. simpl. by f_equal. Qed.

Lemma sent_in_app {A} (m : Go A) w msgs :
  trace (m w).2 = trace w ++ (eff_Send <$> msgs) → sent_in m w = msgs.
Proof.
  intros H. unfold sent_in. rewrite H, drop_app_length. apply sends_eff_Send.
Qed.

(** The world the loop leaves behind: the consumed notifications applied
    in order, and one snapshot sent after each. *)
Lemma watch_loop_world srv cases : ∀ n w,
  (watch_loop srv n cases w).2 =
    {| this := marks (consumed srv n cases) (this w);
       trace := trace w ++ (eff_Send <$> snapshots (this w) (consumed srv n cases)) |}.
Proof.
  induction cases as [|c cases IH]; intros n w.
  - simpl. rewrite app_nil_r. by destruct w.
  - destruct c as [|devID].
    + simpl. rewrite app_nil_r. by destruct w.
    + cbn [watch_loop consumed]. go_run. destruct (srv n) as [e|].
      * done.
      * rewrite IH. cbn [this trace snapshots fmap list_fmap].
        rewrite marks_cons, <- app_assoc. done.
Qed.

Lemma ListAndWatch_world srv cases w :
  (ListAndWatch srv cases w).2 =
    {| this := marks (applied srv cases) (this w);
       trace := trace w ++
         (eff_Send <$> (listK8sDevices (this w) :: snapshots (this w) (applied srv cases))) |}.
Proof.
  unfold ListAndWatch, applied. go_run. destruct (srv 0) as [e|].
  - done.
  - rewrite watch_loop_world. cbn [this trace fmap list_fmap].
    rewrite <- app_assoc. done.
Qed.

Lemma ListAndWatch_sent srv cases w :
  sent_in (ListAndWatch srv cases) w =
    listK8sDevices (this w) :: snapshots (this w) (applied srv cases).
Proof. apply sent_in_app. by rewrite ListAndWatch_world. Qed.

(** The handler never panics. *)
Lemma watch_loop_returns srv cases : ∀ n w, ∃ r, (watch_loop srv n cases w).1 = Return r.
Proof.
  induction cases as [|c cases IH]; intros n w; [by eexists|].
  destruct c as [|devID]; [by eexists|].
  cbn [watch_loop]. go_run. destruct (srv n); [by eexists|]. apply IH.
Qed.

Lemma ListAndWatch_returns srv cases w : ∃ r, (ListAndWatch srv cases w).1 = Return r.
Proof.
  unfold ListAndWatch. go_run. destruct (srv 0); [by eexists|]. apply watch_loop_returns.
Qed.

Lemma consumed_notified srv cases : ∀ n, consumed srv n cases ⊆ notified cases.
Proof.
  induction cases as [|c cases IH]; intros n; [done|].
  destruct c as [|devID]; cbn.
  - apply list_subseteq_nil.
  - destruct (srv n).
    + intros x Hx. apply list_elem_of_singleton in Hx as ->. by left.
    + intros x Hx. apply elem_of_cons in Hx as [->|Hx]; [by left|].
      right. by apply (IH (S n)).
Qed.

Lemma applied_notified srv cases : applied srv cases ⊆ notified cases.
Proof.
  unfold applied. destruct (srv 0); [apply list_subseteq_nil|apply consumed_notified].
Qed.

(** With a stream that never fails and no [recv_done], every notification
    is applied. *)
Lemma consumed_all srv ids : ∀ n,
  (∀ k, srv k = None) → consumed srv n (recv_unhealthyDev <$> ids) = ids.
Proof.
  induction ids as [|id ids IH]; intros n Hsrv; [done|].
  cbn. rewrite Hsrv. f_equal. by apply IH.
Qed.

Lemma snapshots_lookup ids : ∀ dp i,
  i < length ids →
  snapshots dp ids !! i = Some (listK8sDevices (marks (take (S i) ids) dp)).
Proof.
  induction ids as [|id ids IH]; intros dp i Hi; [simpl in Hi; lia|].
  destruct i as [|i]; [done|].
  cbn [snapshots lookup list_lookup]. simpl in Hi.
  rewrite (IH _ i) by lia. done.
Qed.

Lemma snapshots_length ids : ∀ dp, length (snapshots dp ids) = length ids.
Proof. induction ids as [|id ids IH]; intros dp; [done|]. simpl. by rewrite IH. Qed.

(** ** The loops of Allocate *)

Lemma append_mounts_spec paths : ∀ nvidiaMounts,
  append_mounts paths nvidiaMounts = nvidiaMounts ++ (read_only_mount <$> paths).
Proof.
  induction paths as [|p paths IH]; intros acc; simpl.
  - by rewrite app_nil_r.
  - rewrite IH, <- app_assoc. done.
Qed.

Lemma append_nvDevs_spec nvDevs : ∀ nvidiaDevices,
  append_nvDevs nvDevs nvidiaDevices = nvidiaDevices ++ (rw_device <$> nvDevs).
Proof.
  induction nvDevs as [|p nvDevs IH]; intros acc; simpl.
  - by rewrite app_nil_r.
  - rewrite IH, <- app_assoc. done.
Qed.

Lemma append_devIDs_frame devIDs : ∀ acc w, (append_devIDs devIDs acc w).2 = w.
Proof.
  induction devIDs as [|devID devIDs IH]; intros acc w; [done|].
  cbn [append_devIDs]. go_run. destruct (devices (this w) !! devID); [apply IH|done].
Qed.

Lemma append_devIDs_known devIDs : ∀ acc w,
  Forall (fun id => id ∈ dom (devices (this w))) devIDs →
  ∃ paths, registry_paths (devices (this w)) devIDs paths ∧
           (append_devIDs devIDs acc w).1 = Return (acc ++ (rw_device <$> paths)).
Proof.
  induction devIDs as [|devID devIDs IH]; intros acc w Hknown.
  - exists []. split; [constructor|]. simpl. by rewrite app_nil_r.
  - apply Forall_cons in Hknown as [Hid Hknown].
    apply elem_of_dom in Hid as [device Hdev].
    cbn [append_devIDs]. go_run. rewrite Hdev.
    destruct (IH (acc ++ [rw_device (nvml.Path device)]) w Hknown) as (paths & Hpaths & Hrun).
    exists (nvml.Path device :: paths). split.
    + constructor; [by exists device|done].
    + unfold rw_device in *. rewrite Hrun, <- app_assoc. done.
Qed.

(** One unknown id makes the loop panic, whatever precedes or follows it. *)
Lemma append_devIDs_unknown devIDs : ∀ acc w devID,
  devID ∈ devIDs → devID ∉ dom (devices (this w)) →
  (append_devIDs devIDs acc w).1 = Panic nil_dereference.
Proof.
  induction devIDs as [|d devIDs IH]; intros acc w devID Hin Hunknown.
  - by apply elem_of_nil in Hin.
  - cbn [append_devIDs]. go_run.
    destruct (devices (this w) !! d) as [device|] eqn:Hd; [|done].
    apply elem_of_cons in Hin as [->|Hin].
    + exfalso. apply Hunknown, elem_of_dom. by exists device.
    + by apply (IH _ _ devID).
Qed.

Lemma append_responses_frame nvDevs nvidiaMounts reqs : ∀ acc w,
  (append_responses nvDevs nvidiaMounts reqs acc w).2 = w.
Proof.
  induction reqs as [|r reqs IH]; intros acc w; [done|].
  cbn [append_responses]. unfold bind.
  pose proof (append_devIDs_frame (k8sDP.DevicesIDs r) (append_nvDevs nvDevs []) w) as Hw.
  destruct (append_devIDs _ _ w) as [[specs|msg] w']; simpl in Hw; subst w'.
  - apply IH.
  - done.
Qed.

Lemma append_responses_known nvLibs nvBins nvDevs reqs : ∀ acc w,
  Forall (fun r => Forall (fun id => id ∈ dom (devices (this w))) (k8sDP.DevicesIDs r))
         reqs →
  ∃ crs, Forall2 (answers (devices (this w)) nvLibs nvBins nvDevs) reqs crs ∧
         (append_responses nvDevs
            ((read_only_mount <$> nvLibs) ++ (read_only_mount <$> nvBins)) reqs acc w).1
           = Return (acc ++ crs).
Proof.
  induction reqs as [|r reqs IH]; intros acc w Hknown.
  - exists []. split; [constructor|]. simpl. by rewrite app_nil_r.
  - apply Forall_cons in Hknown as [Hr Hknown].
    cbn [append_responses]. unfold bind.
    pose proof (append_devIDs_frame (k8sDP.DevicesIDs r) (append_nvDevs nvDevs []) w) as Hw.
    destruct (append_devIDs_known _ (append_nvDevs nvDevs []) w Hr) as (paths & Hpaths & Hrun).
    destruct (append_devIDs _ _ w) as [[specs|msg] w']; simpl in Hw, Hrun; subst w';
      [|discriminate].
    injection Hrun as ->. rewrite append_nvDevs_spec. cbn [app].
    edestruct (IH (acc ++
      [ {| k8sDP.Mounts := (read_only_mount <$> nvLibs) ++ (read_only_mount <$> nvBins);
           k8sDP.Devices := (rw_device <$> nvDevs) ++ (rw_device <$> paths) |} ]) w Hknown)
      as (crs & Hcrs & Hrest).
    exists ({| k8sDP.Mounts := (read_only_mount <$> nvLibs) ++ (read_only_mount <$> nvBins);
               k8sDP.Devices := (rw_device <$> nvDevs) ++ (rw_device <$> paths) |} :: crs).
    split.
    + constructor; [|exact Hcrs]. split; [done|]. by exists paths.
    + rewrite Hrest, <- app_assoc. done.
Qed.

Lemma append_devIDs_outcome devIDs : ∀ acc w,
  (∃ specs, (append_devIDs devIDs acc w).1 = Return specs) ∨
  (append_devIDs devIDs acc w).1 = Panic nil_dereference.
Proof.
  induction devIDs as [|d devIDs IH]; intros acc w; [left; by eexists|].
  cbn [append_devIDs]. go_run. destruct (devices (this w) !! d); [apply IH|by right].
Qed.

(** A container request with an unknown id makes the loop over the batch
    panic, wherever it stands in the batch: no response list comes out. *)
Lemma append_responses_unknown nvDevs nvidiaMounts reqs : ∀ acc w r devID,
  r ∈ reqs → devID ∈ k8sDP.DevicesIDs r → devID ∉ dom (devices (this w)) →
  (append_responses nvDevs nvidiaMounts reqs acc w).1 = Panic nil_dereference.
Proof.
  induction reqs as [|r0 reqs IH]; intros acc w r devID Hr Hid Hunknown.
  - by apply elem_of_nil in Hr.
  - cbn [append_responses]. unfold bind.
    pose proof (append_devIDs_frame (k8sDP.DevicesIDs r0) (append_nvDevs nvDevs []) w) as Hw.
    pose proof (append_devIDs_outcome (k8sDP.DevicesIDs r0) (append_nvDevs nvDevs []) w)
      as Hout.
    apply elem_of_cons in Hr as [->|Hr].
    + rewrite (append_devIDs_unknown _ _ _ devID Hid Hunknown) in Hout.
      pose proof (append_devIDs_unknown _ (append_nvDevs nvDevs []) _ devID Hid Hunknown)
        as Hpanic.
      destruct (append_devIDs _ _ w) as [[specs|msg] w']; cbn [fst] in *;
        [discriminate|]. by injection Hpanic as ->.
    + destruct (append_devIDs _ _ w) as [[specs|msg] w']; cbn [fst snd] in *; subst w'.
      * by apply (IH _ _ r devID).
      * destruct Hout as [[? [=]]|[= ->]]. done.
Qed.

(** So does Allocate, once the path resolver has answered. *)
Lemma Allocate_unknown_panics env req w nvLibs nvBins nvDevs r devID :
  nvidia_Paths env (confDir (this w)) = inl (nvLibs, nvBins) →
  nvidia_Devices env = inl nvDevs →
  r ∈ k8sDP.ContainerRequests req → devID ∈ k8sDP.DevicesIDs r →
  devID ∉ dom (devices (this w)) →
  (Allocate env req w).1 = Panic nil_dereference.
Proof.
  intros Hpaths Hdevs Hr Hid Hunknown. unfold Allocate. go_run. rewrite Hpaths, Hdevs.
  pose proof (append_responses_unknown nvDevs
    (append_mounts nvBins (append_mounts nvLibs [])) _ [] w r devID Hr Hid Hunknown) as Hp.
  destruct (append_responses _ _ _ _ w) as [[crs|msg] w']; cbn [fst] in *;
    [discriminate|]. by injection Hp as ->.
Qed.

Lemma Allocate_frame env req w : (Allocate env req w).2 = w.
Proof.
  unfold Allocate. go_run.
  destruct (nvidia_Paths env (confDir (this w))) as [[nvLibs nvBins]|err]; [|done].
  destruct (nvidia_Devices env) as [nvDevs|err]; [|done].
  pose proof (append_responses_frame nvDevs
    (append_mounts nvBins (append_mounts nvLibs [])) (k8sDP.ContainerRequests req) [] w) as Hw.
  destruct (append_responses _ _ _ _ w) as [[crs|msg] w']; simpl in Hw; by subst w'.
Qed.

(** ** Shutdown *)

Lemma Shutdown_open env w :
  done (this w) = chan_open →
  Shutdown env w =
    (Return (nvml_Shutdown env),
     {| this := set_done chan_closed (this w);
        trace := trace w ++ [eff_close_done; eff_nvml_Shutdown] |}).
Proof.
  intros Hopen. unfold Shutdown. go_run. rewrite Hopen. go_run.
  rewrite <- app_assoc. done.
Qed.

Lemma Shutdown_closed env w :
  done (this w) = chan_closed → Shutdown env w = (Panic close_of_closed_channel, w).
Proof. intros Hclosed. unfold Shutdown. go_run. rewrite Hclosed. done. Qed.

Lemma closes_app tr1 tr2 : closes (tr1 ++ tr2) = closes tr1 + closes tr2.
Proof.
  induction tr1 as [|e tr1 IH]; [done|]. destruct e; simpl; rewrite IH; done.
Qed.

Lemma closes_eff_Send msgs : closes (eff_Send <$> msgs) = 0.
Proof. induction msgs as [|m msgs IH]; done. Qed.

(** ** The constructor *)

(** The registry is filled with one Healthy entry per device. *)
Lemma register_devices_healthy devs : ∀ dp,
  hospital dp = (fun _ => k8sDP.Healthy) <$> devices dp →
  hospital (register_devices devs dp) =
    (fun _ => k8sDP.Healthy) <$> devices (register_devices devs dp).
Proof.
  induction devs as [|dev devs IH]; intros dp Hdp; [done|].
  apply (IH (register_device dp dev)). simpl. rewrite Hdp. by rewrite fmap_insert.
Qed.

Lemma register_devices_frame devs : ∀ dp,
  confDir (register_devices devs dp) = confDir dp ∧
  done (register_devices devs dp) = done dp.
Proof.
  induction devs as [|dev devs IH]; intros dp; [done|].
  destruct (IH (register_device dp dev)) as [H1 H2].
  unfold register_devices in *. simpl. by rewrite H1, H2.
Qed.

(** What a successful construction tells about the collaborators and the
    plugin returned. *)
Lemma NewSingularityDevicePlugin_success env dp tr :
  NewSingularityDevicePlugin env = (Return (Some dp, None), tr) →
  ∃ SingularityConfdir devs,
    BuildConfig env = inl SingularityConfdir ∧
    nvml_Init env = None ∧
    getDevices env = inl devs ∧ devs ≠ [] ∧
    dp = register_devices devs
           {| devices := ∅; hospital := ∅; confDir := SingularityConfdir;
              done := chan_open |} ∧
    tr = [eff_nvml_Init].
Proof.
  pose proof (register_devices_frame) as Hframe.
  unfold NewSingularityDevicePlugin, construct, Shutdown.
  destruct (exec_LookPath env); [intros [=]|].
  destruct (BuildConfig env) as [conf|]; [|intros [=]].
  destruct (nvml_Init env); [intros [=]|].
  destruct (nvml_GetDriverVersion env) as [v|e]; [|go_run; intros [=]].
  destruct (getDevices env) as [devs|e]; [|go_run; intros [=]].
  destruct (decide (length devs = 0)) as [Hz|Hnz]; [intros [=]|].
  go_run. destruct (monitorGPUs env (nvml.UUID <$> devs)).
  - go_run. destruct (Hframe devs
      {| devices := ∅; hospital := ∅; confDir := conf; done := chan_open |}) as [_ ->].
    go_run. cbn [done]. go_run. intros [=].
  - cbn. intros [= <- <-]. exists conf, devs. repeat split; try done.
    intros ->. done.
Qed.

Lemma NewSingularityDevicePlugin_registry env dp tr :
  NewSingularityDevicePlugin env = (Return (Some dp, None), tr) →
  hospital dp = (fun _ => k8sDP.Healthy) <$> devices dp ∧
  done dp = chan_open ∧ tr = [eff_nvml_Init].
Proof.
  intros H. apply NewSingularityDevicePlugin_success in H
    as (conf & devs & _ & _ & _ & _ & -> & ->).
  split; [|split; [|done]].
  - apply register_devices_healthy. simpl. by rewrite fmap_empty.
  - by destruct (register_devices_frame devs
      {| devices := ∅; hospital := ∅; confDir := conf; done := chan_open |}).
Qed.

(** ** The plugin in service: what a call can change *)

Lemma evolves_refl allowed w : evolves allowed w w.
Proof.
  repeat split; try done. exists []. split; [apply list_subseteq_nil|done].
Qed.

Lemma evolves_mono a1 a2 w w' : a1 ⊆ a2 → evolves a1 w w' → evolves a2 w w'.
Proof.
  intros Hsub (Hd & Hc & (ids & Hs & Hh) & Ha). repeat split; try done.
  exists ids. split; [|done]. by etrans.
Qed.

Lemma evolves_trans a1 a2 w1 w2 w3 :
  evolves a1 w1 w2 → evolves a2 w2 w3 → evolves (a1 ++ a2) w1 w3.
Proof.
  intros (Hd1 & Hc1 & (ids1 & Hs1 & Hh1) & Ha1) (Hd2 & Hc2 & (ids2 & Hs2 & Hh2) & Ha2).
  repeat split; [congruence|congruence| |tauto].
  exists (ids1 ++ ids2). split.
  - intros x Hx. apply elem_of_app in Hx as [Hx|Hx]; apply elem_of_app; auto.
  - rewrite Hh2, marks_app. apply map_eq. intros id.
    rewrite !marks_lookup, Hh1, marks_lookup. done.
Qed.

Lemma run_call_evolves env c w : evolves (call_notified c) w (run_call env c w).2.
Proof.
  destruct c as [| |srv cases|req|]; cbn [run_call call_notified].
  - destruct (done (this w)) eqn:Hdone.
    + rewrite (bind_Return _ _ _ _ _ (Shutdown_open env w Hdone)). cbn.
      repeat split; try done.
      * exists []. split; [apply list_subseteq_nil|done].
      * unfold closes_agree. cbn. rewrite Hdone, closes_app. simpl. lia.
    + rewrite (bind_Panic _ _ _ _ _ (Shutdown_closed env w Hdone)). apply evolves_refl.
  - apply evolves_refl.
  - unfold bind. pose proof (ListAndWatch_world srv cases w) as Hw.
    destruct (ListAndWatch srv cases w) as [[r|msg] w']; cbn [snd] in *; subst w';
      (destruct (marks_frame (applied srv cases) (this w)) as (Hd & Hc & Ho);
       repeat split; cbn [this trace ret snd]; try done;
       [ exists (applied srv cases); split; [apply applied_notified|done]
       | unfold closes_agree; cbn [this trace]; rewrite Ho, closes_app, closes_eff_Send;
         lia ]).
  - unfold bind. pose proof (Allocate_frame env req w) as Hw.
    destruct (Allocate env req w) as [[r|msg] w']; cbn [snd] in *; subst w';
      apply evolves_refl.
  - apply evolves_refl.
Qed.

Lemma run_calls_evolves env cs : ∀ w,
  evolves (concat (call_notified <$> cs)) w (run_calls env cs w).2.
Proof.
  induction cs as [|c cs IH]; intros w; [apply evolves_refl|].
  cbn [run_calls fmap list_fmap concat]. unfold bind.
  pose proof (run_call_evolves env c w) as Hc.
  destruct (run_call env c w) as [[[]|msg] w']; cbn [snd] in *.
  - eapply evolves_trans; [exact Hc|apply IH].
  - eapply evolves_mono; [|exact Hc].
    intros x Hx. apply elem_of_app. by left.
Qed.

(** * The claims *)

(** ** Allocate and unknown device ids *)

(** C1: the design asks that a container request naming a device id that
    is not a key of the registry gets an explicit not-found failure, that
    nothing crashes, and that the other containers of the batch are served.
    The code reads [dp.devices[devID]] without a check and dereferences
    the nil pointer it gets: on the two-GPU host, a batch whose first
    container asks for the known gpu-0 and whose second asks for the
    unknown gpu-9 ends in a nil-dereference panic, so no container of the
    batch receives a response and no error value is returned. *)
Theorem Allocate_unknown_id_panics :
  "gpu-0" ∈ dom (devices example_plugin) ∧
  ("gpu-9" ∉ dom (devices example_plugin)) ∧
  (Allocate example_env
     {| k8sDP.ContainerRequests :=
          [ {| k8sDP.DevicesIDs := ["gpu-0"] |}; {| k8sDP.DevicesIDs := ["gpu-9"] |} ] |}
     example_world).1 = Panic nil_dereference.
Proof.
  split; [|split].
  - apply elem_of_dom. by eexists.
  - by apply not_elem_of_dom.
  - reflexivity.
Qed.

(** ** The two maps of the registry *)

(** C2, as stated, fails: on the two-GPU host the key sets are equal after
    construction, but a handler that receives the unknown id gpu-9 stores
    it in the health map, which changes that map and breaks the equality
    of the key sets. *)
Lemma unknown_notification_changes_hospital :
  let w' := (ListAndWatch healthy_stream [recv_unhealthyDev "gpu-9"] example_world).2 in
  ("gpu-9" ∉ dom (devices example_plugin)) ∧
  dom (devices example_plugin) = dom (hospital example_plugin) ∧
  hospital (this w') ≠ hospital example_plugin ∧
  dom (devices (this w')) ≠ dom (hospital (this w')).
Proof.
  cbn zeta. split; [by apply not_elem_of_dom|]. split; [reflexivity|]. split.
  - intros H. apply (f_equal (lookup "gpu-9")) in H. vm_compute in H. discriminate.
  - intros H. apply (f_equal (fun s => bool_decide ("gpu-9" ∈ s))) in H.
    vm_compute in H. discriminate.
Qed.

(** C2, amended: after a successful construction the device map and the
    health map have the same keys; every sequence of calls whose monitor
    notifications carry known ids leaves the device map as it is and keeps
    the two key sets equal; and a notification with an unknown id, which
    the handler takes without panicking and without touching the device
    map, is not ignored: the id enters the health map as Unhealthy. *)
Theorem registry_keys_preserved env dp tr :
  NewSingularityDevicePlugin env = (Return (Some dp, None), tr) →
  dom (devices dp) = dom (hospital dp) ∧
  (∀ cs,
     Forall (fun c => Forall (fun id => id ∈ dom (devices dp)) (call_notified c)) cs →
     let w' := (run_calls env cs {| this := dp; trace := tr |}).2 in
     devices (this w') = devices dp ∧
     dom (devices (this w')) = dom (hospital (this w'))) ∧
  (∀ srv devID w,
     devID ∉ dom (devices (this w)) → srv 0 = None →
     let run := ListAndWatch srv [recv_unhealthyDev devID] w in
     (∃ r, run.1 = Return r) ∧
     devices (this run.2) = devices (this w) ∧
     hospital (this run.2) = <[devID := k8sDP.Unhealthy]> (hospital (this w))).
Proof.
  intros Hnew. apply NewSingularityDevicePlugin_registry in Hnew as (Hh & _ & _).
  assert (Hdom : dom (devices dp) = dom (hospital dp)) by (by rewrite Hh, dom_fmap_L).
  split; [done|]. split.
  - intros cs Hknown w'.
    destruct (run_calls_evolves env cs {| this := dp; trace := tr |})
      as (Hd & _ & (ids & Hsub & Hhosp) & _).
    fold w' in Hd, Hhosp. cbn [this] in *. split; [done|].
    rewrite Hd, Hhosp, marks_dom, <- Hdom.
    apply set_eq. intros id. rewrite elem_of_union, elem_of_list_to_set.
    split; [by left|]. intros [?|Hid]; [done|].
    apply Hsub, list_elem_of_In, in_concat in Hid as (l & Hl & Hid).
    apply list_elem_of_In, list_elem_of_fmap in Hl as (c & -> & Hc).
    rewrite Forall_forall in Hknown. specialize (Hknown c Hc).
    rewrite Forall_forall in Hknown. by apply Hknown, list_elem_of_In.
  - intros srv devID w Hunknown Hsrv run. split; [apply ListAndWatch_returns|].
    unfold run. rewrite ListAndWatch_world. unfold applied. rewrite Hsrv.
    cbn [consumed this]. destruct (srv 1); done.
Qed.

(** The invariant after a day of calls on the two-GPU host. *)
Lemma registry_keys_preserved_witness :
  let w' := (run_calls example_env example_calls example_world).2 in
  devices (this w') = devices example_plugin ∧
  dom (devices (this w')) = dom (hospital (this w')).
Proof.
  destruct (registry_keys_preserved example_env example_plugin [eff_nvml_Init])
    as (_ & Hcalls & _); [reflexivity|].
  apply (Hcalls example_calls).
  apply (bool_decide_unpack _). vm_compute. exact I.
Defined.

(** ** Shutdown *)

(** C3, as stated, fails: a second call of Shutdown is not a no-op.  On
    the two-GPU host the first call returns and leaves the channel closed;
    the second call panics on [close(dp.done)]. *)
Lemma second_Shutdown_panics :
  let first := Shutdown example_env example_world in
  first.1 = Return None ∧
  done (this first.2) = chan_closed ∧
  (Shutdown example_env first.2).1 = Panic close_of_closed_channel.
Proof. cbn zeta. repeat split; reflexivity. Qed.

(** C3, amended: a call of Shutdown that finds the signal open closes it
    and then, and only then, shuts the monitoring library down, returning
    what that shutdown returns; a call that finds the signal closed is not
    a no-op but panics at the close, before any teardown and without
    changing anything; so in every run of calls after a successful
    construction the signal is closed at most once. *)
Theorem Shutdown_signal_then_teardown env w :
  (done (this w) = chan_open →
   Shutdown env w =
     (Return (nvml_Shutdown env),
      {| this := set_done chan_closed (this w);
         trace := trace w ++ [eff_close_done; eff_nvml_Shutdown] |})) ∧
  (done (this w) = chan_closed →
   Shutdown env w = (Panic close_of_closed_channel, w)) ∧
  (∀ dp tr cs,
     NewSingularityDevicePlugin env = (Return (Some dp, None), tr) →
     (closes (trace (run_calls env cs {| this := dp; trace := tr |}).2) ≤ 1)%nat).
Proof.
  split; [apply Shutdown_open|]. split; [apply Shutdown_closed|].
  intros dp tr cs Hnew.
  apply NewSingularityDevicePlugin_registry in Hnew as (_ & Hopen & ->).
  destruct (run_calls_evolves env cs {| this := dp; trace := [eff_nvml_Init] |})
    as (_ & _ & _ & Hagree).
  unfold closes_agree in Hagree. cbn [this trace] in Hagree. rewrite Hopen in Hagree.
  rewrite (Hagree eq_refl). destruct (done (this _)); lia.
Qed.

(** The first Shutdown on the two-GPU host, and the count of closes after
    two. *)
Lemma Shutdown_signal_then_teardown_witness :
  Shutdown example_env example_world =
    (Return None,
     {| this := set_done chan_closed example_plugin;
        trace := [eff_nvml_Init; eff_close_done; eff_nvml_Shutdown] |}) ∧
  (closes (trace (run_calls example_env [call_Shutdown; call_Shutdown] example_world).2)
     ≤ 1)%nat.
Proof.
  destruct (Shutdown_signal_then_teardown example_env example_world)
    as (Hopen & _ & Honce).
  split.
  - apply Hopen. reflexivity.
  - apply (Honce example_plugin [eff_nvml_Init]). reflexivity.
Defined.

(** ** Allocate on known ids *)

(** C4: when the path resolver answers and every requested id is a key of
    the device map, Allocate returns a response and a nil error; the
    response has one entry per container request, in request order; every
    entry carries the same mounts, one read-only mount per library path
    and then per binary path, container path equal to host path; and its
    device specs are the complementary devices followed by one spec per
    requested id, in request order, with the path the registry records,
    all with permissions rw and container path equal to host path. *)
Theorem Allocate_known_ids env req w nvLibs nvBins nvDevs :
  nvidia_Paths env (confDir (this w)) = inl (nvLibs, nvBins) →
  nvidia_Devices env = inl nvDevs →
  Forall (fun r => Forall (fun id => id ∈ dom (devices (this w))) (k8sDP.DevicesIDs r))
         (k8sDP.ContainerRequests req) →
  ∃ resp,
    (Allocate env req w).1 = Return (Some resp, None) ∧
    length (k8sDP.ContainerResponses resp) = length (k8sDP.ContainerRequests req) ∧
    Forall2 (answers (devices (this w)) nvLibs nvBins nvDevs)
            (k8sDP.ContainerRequests req) (k8sDP.ContainerResponses resp).
Proof.
  intros Hpaths Hdevs Hknown.
  destruct (append_responses_known nvLibs nvBins nvDevs _ [] w Hknown)
    as (crs & Hcrs & Hrun).
  exists {| k8sDP.ContainerResponses := crs |}. split; [|split].
  - unfold Allocate. go_run. rewrite Hpaths, Hdevs.
    rewrite !append_mounts_spec. cbn [app].
    destruct (append_responses _ _ _ _ w) as [[crs'|msg] w'];
      cbn [fst] in Hrun; [|discriminate].
    by injection Hrun as ->.
  - symmetry. by eapply Forall2_length.
  - exact Hcrs.
Qed.

(** Scenario C of the design, with a second container in the batch. *)
Lemma Allocate_known_ids_witness :
  (Allocate example_env
     {| k8sDP.ContainerRequests :=
          [ {| k8sDP.DevicesIDs := ["gpu-1"; "gpu-0"] |};
            {| k8sDP.DevicesIDs := ["gpu-0"] |} ] |}
     example_world).1 =
  Return
    (Some {| k8sDP.ContainerResponses :=
       [ {| k8sDP.Mounts := [ read_only_mount "/usr/lib/libcuda.so.1";
                              read_only_mount "/usr/bin/nvidia-smi" ];
            k8sDP.Devices := [ rw_device "/dev/nvidiactl"; rw_device "/dev/nvidia1";
                               rw_device "/dev/nvidia0" ] |};
         {| k8sDP.Mounts := [ read_only_mount "/usr/lib/libcuda.so.1";
                              read_only_mount "/usr/bin/nvidia-smi" ];
            k8sDP.Devices := [ rw_device "/dev/nvidiactl"; rw_device "/dev/nvidia0" ] |} ] |},
     None).
Proof.
  destruct (Allocate_known_ids example_env
    {| k8sDP.ContainerRequests :=
         [ {| k8sDP.DevicesIDs := ["gpu-1"; "gpu-0"] |};
           {| k8sDP.DevicesIDs := ["gpu-0"] |} ] |}
    example_world ["/usr/lib/libcuda.so.1"] ["/usr/bin/nvidia-smi"] ["/dev/nvidiactl"])
    as (resp & Hrun & _ & _).
  - reflexivity.
  - reflexivity.
  - apply (bool_decide_unpack _). vm_compute. exact I.
  - reflexivity.
Defined.

(** ** The messages of a watch stream *)

Lemma ListAndWatch_message srv cases w i devList :
  sent_in (ListAndWatch srv cases) w !! i = Some devList →
  devList = listK8sDevices (marks (take i (applied srv cases)) (this w)).
Proof.
  rewrite ListAndWatch_sent. destruct i as [|i]; cbn [lookup list_lookup].
  - by intros [= <-].
  - intros Hi. pose proof (lookup_lt_Some _ _ _ Hi) as Hlt.
    rewrite snapshots_length in Hlt.
    rewrite snapshots_lookup in Hi by done. by injection Hi as <-.
Qed.

(** C5: a watch stream opened at any moment of the plugin's service (after
    a successful construction and any calls) first sends the snapshot of
    the health map as it is then; every message it sends, the first and
    the later ones, is the snapshot of the whole health map at the moment
    of sending, namely after the notifications received so far, and has
    exactly one entry for every known device; and on a stream opened
    right after construction the first message lists exactly the known
    devices, each Healthy. *)
Theorem ListAndWatch_sends_full_snapshots env dp tr :
  NewSingularityDevicePlugin env = (Return (Some dp, None), tr) →
  let w0 := {| this := dp; trace := tr |} in
  (∀ cs srv cases,
     let w := (run_calls env cs w0).2 in
     let msgs := sent_in (ListAndWatch srv cases) w in
     (∃ first, msgs !! 0 = Some first ∧ snapshot_of (hospital (this w)) first) ∧
     ∀ i devList, msgs !! i = Some devList →
       snapshot_of (hospital (marks (take i (applied srv cases)) (this w))) devList ∧
       full_snapshot (devices dp) devList) ∧
  (∀ srv cases devList,
     sent_in (ListAndWatch srv cases) w0 !! 0 = Some devList →
     ∀ id s, {| k8sDP.ID := id; k8sDP.Health := s |} ∈ devList ↔
             id ∈ dom (devices dp) ∧ s = k8sDP.Healthy).
Proof.
  intros Hnew w0. apply NewSingularityDevicePlugin_registry in Hnew as (Hh & _ & _).
  split.
  - intros cs srv cases w msgs. split.
    + exists (listK8sDevices (this w)). split; [|apply listK8sDevices_snapshot].
      unfold msgs. by rewrite ListAndWatch_sent.
    + intros i devList Hi. apply ListAndWatch_message in Hi as ->.
      pose proof (listK8sDevices_snapshot (marks (take i (applied srv cases)) (this w)))
        as Hsnap.
      split; [done|]. eapply snapshot_full; [|exact Hsnap].
      destruct (run_calls_evolves env cs w0) as (Hd & _ & (ids & _ & Hhosp) & _).
      fold w in Hd, Hhosp. cbn [this w0] in *.
      rewrite marks_dom, Hhosp, marks_dom, Hh, dom_fmap_L.
      intros id Hid. apply elem_of_union. left. apply elem_of_union. by left.
  - intros srv cases devList Hi id s. apply ListAndWatch_message in Hi as ->.
    rewrite take_0. change (marks [] (this w0)) with dp. rewrite elem_of_listK8sDevices.
    rewrite Hh, lookup_fmap, elem_of_dom. destruct (devices dp !! id) as [device|]; cbn.
    + split; [intros [= <-]; split; [by eexists|done]|by intros [_ ->]].
    + split; [done|]. by intros [[? [=]] _].
Qed.

(** Scenario A of the design: two devices, and a stream opened right after
    construction. *)
Lemma ListAndWatch_sends_full_snapshots_witness :
  ∃ first,
    sent_in (ListAndWatch healthy_stream [recv_unhealthyDev "gpu-1"; recv_done])
            example_world !! 0 = Some first ∧
    ({| k8sDP.ID := "gpu-0"; k8sDP.Health := k8sDP.Healthy |} ∈ first) ∧
    ({| k8sDP.ID := "gpu-1"; k8sDP.Health := k8sDP.Healthy |} ∈ first) ∧
    full_snapshot (devices example_plugin) first.
Proof.
  destruct (ListAndWatch_sends_full_snapshots example_env example_plugin [eff_nvml_Init])
    as [Hany Hfirst]; [reflexivity|].
  destruct (Hany [] healthy_stream [recv_unhealthyDev "gpu-1"; recv_done])
    as [(first & H0 & _) Hall].
  exists first. split; [exact H0|].
  split; [|split].
  - apply (Hfirst healthy_stream [recv_unhealthyDev "gpu-1"; recv_done] _ H0).
    split; [apply elem_of_dom; by eexists|reflexivity].
  - apply (Hfirst healthy_stream [recv_unhealthyDev "gpu-1"; recv_done] _ H0).
    split; [apply elem_of_dom; by eexists|reflexivity].
  - apply (Hall 0 first H0).
Defined.

(** ** The ways out of the handler *)

Lemma watch_loop_done srv ids : ∀ n rest w,
  (∀ k, k < length ids → srv (n + k) = None) →
  (watch_loop srv n ((recv_unhealthyDev <$> ids) ++ recv_done :: rest) w).1
    = Return (returned None).
Proof.
  induction ids as [|id ids IH]; intros n rest w Hsrv; [done|].
  cbn [fmap list_fmap app watch_loop]. go_run.
  rewrite <- (Nat.add_0_r n), Hsrv by (simpl; lia). rewrite Nat.add_0_r.
  apply IH. intros k Hk. rewrite Nat.add_succ_comm. apply Hsrv. simpl. lia.
Qed.

Lemma watch_loop_failed srv ids : ∀ n devID rest w e',
  (∀ k, k < length ids → srv (n + k) = None) →
  srv (n + length ids) = Some e' →
  (watch_loop srv n ((recv_unhealthyDev <$> ids) ++ recv_unhealthyDev devID :: rest) w).1
    = Return (returned (Some (status_Errorf codes.Unknown
               ("could not send updated devices state: " ++ Error e')))).
Proof.
  induction ids as [|id ids IH]; intros n devID rest w e' Hsrv Hfail.
  - cbn [fmap list_fmap app watch_loop]. go_run.
    simpl in Hfail. rewrite Nat.add_0_r in Hfail. by rewrite Hfail.
  - cbn [fmap list_fmap app watch_loop]. go_run.
    rewrite <- (Nat.add_0_r n), Hsrv by (simpl; lia). rewrite Nat.add_0_r.
    apply IH.
    + intros k Hk. rewrite Nat.add_succ_comm. apply Hsrv. simpl. lia.
    + rewrite <- Hfail. f_equal. simpl. lia.
Qed.

(** Whatever the loop returns, it returns for one of the two reasons. *)
Lemma watch_loop_exit srv cases : ∀ n w err,
  (watch_loop srv n cases w).1 = Return (returned err) →
  (err = None ∧ loop_done srv n cases) ∨
  (∃ e', err = Some (status_Errorf codes.Unknown
                       ("could not send updated devices state: " ++ Error e')) ∧
         loop_failed srv n cases e').
Proof.
  induction cases as [|c cases IH]; intros n w err; [intros [=]|].
  destruct c as [|devID].
  - intros [= <-]. left. split; [done|]. exists [], cases. split; [done|].
    intros k Hk. simpl in Hk. lia.
  - cbn [watch_loop]. go_run. destruct (srv n) as [e'|] eqn:Hn.
    + intros [= <-]. right. exists e'. split; [done|].
      exists [], devID, cases. split; [done|]. split.
      * intros k Hk. simpl in Hk. lia.
      * simpl. by rewrite Nat.add_0_r.
    + intros Hrun. apply IH in Hrun as [[-> Hdone]|(e' & -> & Hfail)].
      * left. split; [done|]. destruct Hdone as (ids & rest & -> & Hsrv).
        exists (devID :: ids), rest. split; [done|].
        intros [|k] Hk; [by rewrite Nat.add_0_r|].
        rewrite <- Nat.add_succ_comm. apply Hsrv. simpl in Hk. lia.
      * right. exists e'. split; [done|].
        destruct Hfail as (ids & d & rest & -> & Hsrv & Hlast).
        exists (devID :: ids), d, rest. split; [done|]. split.
        -- intros [|k] Hk; [by rewrite Nat.add_0_r|].
           rewrite <- Nat.add_succ_comm. apply Hsrv. simpl in Hk. lia.
        -- rewrite <- Hlast. f_equal. simpl. lia.
Qed.

(** C6, as stated, fails: the status returned after a failed send does not
    carry the code Internal.  On the two-GPU host, both when the initial
    send fails and when the send after a notification fails, the handler
    returns a status whose code is Unknown. *)
Lemma send_failure_status_is_Unknown :
  (∃ e, (ListAndWatch (stream_failing_at 0) [] example_world).1 = Return (returned (Some e)) ∧
        status_Code e = Some codes.Unknown ∧ status_Code e ≠ Some codes.Internal) ∧
  (∃ e, (ListAndWatch (stream_failing_at 1) [recv_unhealthyDev "gpu-1"] example_world).1
          = Return (returned (Some e)) ∧
        status_Code e = Some codes.Unknown ∧ status_Code e ≠ Some codes.Internal).
Proof.
  split.
  - eexists. split; [reflexivity|]. split; [reflexivity|intros [=]].
  - eexists. split; [reflexivity|]. split; [reflexivity|intros [=]].
Qed.

(** C6, amended: the handler never panics and leaves in exactly two ways.
    It returns a nil error exactly when the closed shutdown signal is
    observed, all sends before that having succeeded; it returns an error
    exactly when a send fails, and that error is a status whose code is
    Unknown (not Internal), built from the send's error; on any other
    choices it is still waiting in the select. *)
Theorem ListAndWatch_exits srv cases w :
  (∃ r, (ListAndWatch srv cases w).1 = Return r) ∧
  (∀ err, (ListAndWatch srv cases w).1 = Return (returned err) →
     (err = None ∧ done_observed srv cases) ∨
     (∃ e' msg, err = Some (status_Errorf codes.Unknown (msg ++ Error e')) ∧
                send_failed srv cases e')) ∧
  (done_observed srv cases → (ListAndWatch srv cases w).1 = Return (returned None)) ∧
  (∀ e', send_failed srv cases e' →
     ∃ msg, (ListAndWatch srv cases w).1 =
              Return (returned (Some (status_Errorf codes.Unknown (msg ++ Error e'))))).
Proof.
  split; [apply ListAndWatch_returns|]. split; [|split].
  - intros err. unfold ListAndWatch. go_run. destruct (srv 0) as [e0|] eqn:H0.
    + intros [= <-]. right. eexists e0, _. split; [done|]. by left.
    + intros Hrun. apply watch_loop_exit in Hrun as [[-> Hdone]|(e' & -> & Hfail)].
      * left. done.
      * right. eexists e', _. split; [done|]. right. done.
  - intros [H0 (ids & rest & -> & Hsrv)]. unfold ListAndWatch. go_run. rewrite H0.
    by apply watch_loop_done.
  - intros e' [H0|[H0 (ids & devID & rest & -> & Hsrv & Hfail)]];
      unfold ListAndWatch; go_run; rewrite H0.
    + by eexists.
    + eexists. by apply watch_loop_failed.
Qed.

(** A clean exit and an exit on a failed send, on the two-GPU host. *)
Lemma ListAndWatch_exits_witness :
  (ListAndWatch healthy_stream [recv_unhealthyDev "gpu-1"; recv_done] example_world).1
    = Return (returned None) ∧
  ∃ msg, (ListAndWatch (stream_failing_at 1) [recv_unhealthyDev "gpu-1"; recv_done]
            example_world).1
         = Return (returned (Some (status_Errorf codes.Unknown
                     (msg ++ Error (foreign "transport is closing"))))).
Proof.
  split.
  - apply (ListAndWatch_exits healthy_stream [recv_unhealthyDev "gpu-1"; recv_done]
             example_world).
    split; [reflexivity|]. exists ["gpu-1"], []. split; [reflexivity|]. reflexivity.
  - apply (ListAndWatch_exits (stream_failing_at 1) [recv_unhealthyDev "gpu-1"; recv_done]
             example_world).
    right. split; [reflexivity|]. exists [], "gpu-1", [recv_done].
    split; [reflexivity|]. split; [|reflexivity]. intros k Hk. simpl in Hk. lia.
Defined.

(** ** Notifications and the unhealthy set *)

Lemma snapshots_snoc ids : ∀ dp id,
  snapshots dp (ids ++ [id]) =
    snapshots dp ids ++ [listK8sDevices (marks (ids ++ [id]) dp)].
Proof.
  induction ids as [|i ids IH]; intros dp id; [done|].
  cbn [app snapshots]. by rewrite IH.
Qed.

Lemma applied_all srv ids :
  (∀ n, srv n = None) → applied srv (recv_unhealthyDev <$> ids) = ids.
Proof. intros Hsrv. unfold applied. rewrite Hsrv. by apply consumed_all. Qed.

(** C7: on the plugin as constructed, a handler that receives any sequence
    of notifications for known ids over a stream whose sends succeed ends
    with a health map whose snapshot reports as Unhealthy exactly the ids
    notified, however often each was notified, and the last message it
    sent is a snapshot of that map with the same unhealthy set; and a notification for an id that is already
    Unhealthy leaves the plugin, hence its health map, as it was. *)
Theorem notifications_unhealthy_set env dp tr srv ids :
  NewSingularityDevicePlugin env = (Return (Some dp, None), tr) →
  Forall (fun id => id ∈ dom (devices dp)) ids →
  (∀ n, srv n = None) →
  let w' := (ListAndWatch srv (recv_unhealthyDev <$> ids) {| this := dp; trace := tr |}).2 in
  unhealthy_set (listK8sDevices (this w')) = list_to_set ids ∧
  (∃ devList, last (sends (trace w')) = Some devList ∧
              snapshot_of (hospital (this w')) devList ∧
              unhealthy_set devList = list_to_set ids) ∧
  (∀ w srv' devID,
     hospital (this w) !! devID = Some k8sDP.Unhealthy →
     this (ListAndWatch srv' [recv_unhealthyDev devID] w).2 = this w).
Proof.
  intros Hnew Hknown Hsrv w'.
  apply NewSingularityDevicePlugin_registry in Hnew as (Hh & _ & ->).
  assert (Hw' : w' = {| this := marks ids dp;
                        trace := [eff_nvml_Init] ++
                          (eff_Send <$> (listK8sDevices dp :: snapshots dp ids)) |}).
  { unfold w'. rewrite ListAndWatch_world. cbn [this trace]. by rewrite applied_all. }
  assert (Hset : unhealthy_set (listK8sDevices (this w')) = list_to_set ids).
  { apply set_eq. intros id.
    rewrite unhealthy_set_spec, elem_of_list_to_set, Hw'. cbn [this].
    rewrite marks_lookup, Hh, lookup_fmap.
    destruct (decide (id ∈ ids)) as [Hin|Hnin]; [done|].
    split; [|done]. destruct (devices dp !! id); intros [=]. }
  split; [done|split].
  - exists (listK8sDevices (this w')).
    split; [|split; [apply listK8sDevices_snapshot|done]].
    rewrite Hw'. cbn [this trace]. rewrite sends_app, sends_eff_Send. cbn [sends omap app].
    destruct ids as [|id ids _] using rev_ind; [done|].
    rewrite snapshots_snoc, app_comm_cons. apply last_snoc.
  - intros w srv' devID Hdev. rewrite ListAndWatch_world. cbn [this].
    unfold applied. destruct (srv' 0); [done|]. cbn [consumed].
    destruct (srv' 1); cbn [marks foldl]; by apply mark_unhealthy_idempotent.
Qed.

(** Scenario B of the design: a repeated notification changes nothing. *)
Lemma notifications_unhealthy_set_witness :
  unhealthy_set (listK8sDevices (this
    (ListAndWatch healthy_stream
       (recv_unhealthyDev <$> ["gpu-1"; "gpu-0"; "gpu-1"]) example_world).2))
  = {[ "gpu-0"; "gpu-1" ]}.
Proof.
  destruct (notifications_unhealthy_set example_env example_plugin [eff_nvml_Init]
              healthy_stream ["gpu-1"; "gpu-0"; "gpu-1"]) as (Hset & _ & _).
  - reflexivity.
  - apply (bool_decide_unpack _). vm_compute. exact I.
  - reflexivity.
  - fold example_world in Hset. rewrite Hset. reflexivity.
Defined.

(** ** Failures of the constructor *)

(** C8: once the runtime is found and the build configuration read, the
    constructor fails with [ErrUnableToLoad] when NVML cannot be
    initialised or cannot report a driver version, and with [ErrNoGPUs]
    when both succeed and the enumeration yields no device; in both cases
    it returns a nil plugin, so there is no registry and nothing to serve;
    the two errors are different values with different texts, and a
    construction that returns a plugin met neither condition. *)
Theorem NewSingularityDevicePlugin_failures env SingularityConfdir :
  exec_LookPath env = None →
  BuildConfig env = inl SingularityConfdir →
  ((is_Some (nvml_Init env) ∨
    (nvml_Init env = None ∧ ∃ e, nvml_GetDriverVersion env = inr e)) →
   (NewSingularityDevicePlugin env).1 = Return (None, Some ErrUnableToLoad)) ∧
  (nvml_Init env = None → (∃ v, nvml_GetDriverVersion env = inl v) →
   getDevices env = inl [] →
   (NewSingularityDevicePlugin env).1 = Return (None, Some ErrNoGPUs)) ∧
  ErrUnableToLoad ≠ ErrNoGPUs ∧
  Error ErrUnableToLoad ≠ Error ErrNoGPUs ∧
  (∀ dp err, (NewSingularityDevicePlugin env).1 = Return (Some dp, err) →
     nvml_Init env = None ∧ (∃ v, nvml_GetDriverVersion env = inl v) ∧
     ∃ devs, getDevices env = inl devs ∧ devs ≠ []).
Proof.
  intros Hpath Hconf. unfold NewSingularityDevicePlugin, construct, Shutdown.
  rewrite Hpath, Hconf. split; [|split; [|split; [|split]]].
  - intros [[e He]|[Hinit [e He]]].
    + by rewrite He.
    + rewrite Hinit, He. go_run. done.
  - intros Hinit [v Hv] Hdevs. rewrite Hinit, Hv, Hdevs. done.
  - done.
  - done.
  - intros dp err. destruct (nvml_Init env); [intros [=]|].
    destruct (nvml_GetDriverVersion env) as [v|e]; [|go_run; intros [=]].
    destruct (getDevices env) as [devs|e]; [|go_run; intros [=]].
    destruct (decide (length devs = 0)) as [Hz|Hnz]; [intros [=]|].
    intros _. split; [done|]. split; [by exists v|]. exists devs. split; [done|].
    by intros ->.
Qed.

(** A host without the driver, and Scenario D of the design: a host
    without GPUs. *)
Lemma NewSingularityDevicePlugin_failures_witness :
  (NewSingularityDevicePlugin env_without_driver).1 = Return (None, Some ErrUnableToLoad) ∧
  (NewSingularityDevicePlugin env_without_GPUs).1 = Return (None, Some ErrNoGPUs).
Proof.
  split.
  - apply (NewSingularityDevicePlugin_failures env_without_driver
             "/usr/local/etc/singularity"); [reflexivity|reflexivity|].
    left. by eexists.
  - apply (NewSingularityDevicePlugin_failures env_without_GPUs
             "/usr/local/etc/singularity"); [reflexivity|reflexivity|reflexivity| |reflexivity].
    by eexists.
Defined.

(** ** Allocate changes nothing *)

(** C9: whatever the request and whatever the outcome (a response, an
    error status, or a panic), Allocate leaves the world as it found it:
    the same device map, health map, configuration directory and shutdown
    signal, and no outside effect; and its outcome depends only on the
    request, the device map and the two answers of the path resolver. *)
Theorem Allocate_changes_nothing env req w :
  (Allocate env req w).2 = w ∧
  (∀ env' w',
     devices (this w') = devices (this w) →
     nvidia_Paths env' (confDir (this w')) = nvidia_Paths env (confDir (this w)) →
     nvidia_Devices env' = nvidia_Devices env →
     (Allocate env' req w').1 = (Allocate env req w).1).
Proof.
  split; [apply Allocate_frame|].
  intros env' w' Hdevs Hpaths Hcompl. unfold Allocate. go_run.
  rewrite Hpaths, Hcompl.
  destruct (nvidia_Paths env (confDir (this w))) as [[nvLibs nvBins]|err]; [|done].
  destruct (nvidia_Devices env) as [nvDevs|err]; [|done].
  assert (Hloop : ∀ reqs acc,
    (append_responses nvDevs (append_mounts nvBins (append_mounts nvLibs [])) reqs acc w').1
    = (append_responses nvDevs (append_mounts nvBins (append_mounts nvLibs [])) reqs acc w).1).
  { assert (Hids : ∀ ids acc, (append_devIDs ids acc w').1 = (append_devIDs ids acc w).1).
    { induction ids as [|id ids IH]; intros acc; [done|].
      cbn [append_devIDs]. go_run. rewrite Hdevs.
      destruct (devices (this w) !! id); [apply IH|done]. }
    induction reqs as [|r reqs IH]; intros acc; [done|].
    cbn [append_responses]. unfold bind.
    pose proof (Hids (k8sDP.DevicesIDs r) (append_nvDevs nvDevs [])) as Hsame.
    pose proof (append_devIDs_frame (k8sDP.DevicesIDs r) (append_nvDevs nvDevs []) w) as Hw.
    pose proof (append_devIDs_frame (k8sDP.DevicesIDs r) (append_nvDevs nvDevs []) w') as Hw'.
    destruct (append_devIDs _ _ w) as [[specs|msg] w1];
      destruct (append_devIDs _ _ w') as [[specs'|msg'] w1'];
      cbn [fst snd] in *; subst w1 w1'; try discriminate.
    - injection Hsame as ->. apply IH.
    - by injection Hsame as ->. }
  specialize (Hloop (k8sDP.ContainerRequests req) []).
  destruct (append_responses _ _ _ _ w) as [[crs|msg] w1];
    destruct (append_responses _ _ _ _ w') as [[crs'|msg'] w1'];
    cbn [fst] in *; try discriminate.
  - by injection Hloop as ->.
  - by injection Hloop as ->.
Qed.

(** Allocate answers the same before and after a device was marked. *)
Lemma Allocate_changes_nothing_witness :
  (Allocate example_env
     {| k8sDP.ContainerRequests := [ {| k8sDP.DevicesIDs := ["gpu-0"] |} ] |}
     (ListAndWatch healthy_stream [recv_unhealthyDev "gpu-0"] example_world).2).1
  = (Allocate example_env
       {| k8sDP.ContainerRequests := [ {| k8sDP.DevicesIDs := ["gpu-0"] |} ] |}
       example_world).1.
Proof.
  apply (Allocate_changes_nothing example_env
    {| k8sDP.ContainerRequests := [ {| k8sDP.DevicesIDs := ["gpu-0"] |} ] |} example_world);
    reflexivity.
Defined.

(** ** A failed send does not undo the mark *)

Lemma consumed_until_failure srv ids : ∀ n devID rest e,
  (∀ k, k < length ids → srv (n + k) = None) →
  srv (n + length ids) = Some e →
  consumed srv n ((recv_unhealthyDev <$> ids) ++ recv_unhealthyDev devID :: rest)
    = ids ++ [devID].
Proof.
  induction ids as [|id ids IH]; intros n devID rest e Hsrv Hfail.
  - simpl in *. rewrite Nat.add_0_r in Hfail. by rewrite Hfail.
  - cbn [fmap list_fmap app consumed].
    rewrite <- (Nat.add_0_r n), Hsrv by (simpl; lia). rewrite Nat.add_0_r.
    f_equal. apply (IH _ _ _ e).
    + intros k Hk. rewrite Nat.add_succ_comm. apply Hsrv. simpl. lia.
    + rewrite <- Hfail. f_equal. simpl. lia.
Qed.

(** C10: when the send that follows a notification fails, the handler
    returns its error and the mark stays: the notified device is Unhealthy
    in the health map the handler leaves behind, it stays so through any
    later calls, and the first message of any watch stream opened
    afterwards reports it Unhealthy. *)
Theorem failed_send_keeps_mark env srv ids devID rest w e :
  srv 0 = None →
  (∀ k, k < length ids → srv (1 + k) = None) →
  srv (1 + length ids) = Some e →
  let run := ListAndWatch srv
               ((recv_unhealthyDev <$> ids) ++ recv_unhealthyDev devID :: rest) w in
  run.1 = Return (returned (Some (status_Errorf codes.Unknown
                    ("could not send updated devices state: " ++ Error e)))) ∧
  hospital (this run.2) !! devID = Some k8sDP.Unhealthy ∧
  (∀ cs srv' cases',
     let later := (run_calls env cs run.2).2 in
     ∃ first more,
       sent_in (ListAndWatch srv' cases') later = first :: more ∧
       {| k8sDP.ID := devID; k8sDP.Health := k8sDP.Unhealthy |} ∈ first).
Proof.
  intros H0 Hsrv Hfail run.
  assert (Hmark : hospital (this run.2) !! devID = Some k8sDP.Unhealthy).
  { unfold run. rewrite ListAndWatch_world. cbn [this]. unfold applied. rewrite H0.
    rewrite (consumed_until_failure _ _ _ _ _ e Hsrv Hfail), marks_lookup.
    rewrite decide_True; [done|]. apply elem_of_app. right. by left. }
  split; [|split; [done|]].
  - unfold run, ListAndWatch. go_run. rewrite H0. by apply watch_loop_failed.
  - intros cs srv' cases' later. rewrite ListAndWatch_sent. eexists _, _. split; [done|].
    apply elem_of_listK8sDevices.
    destruct (run_calls_evolves env cs run.2) as (_ & _ & (ids' & _ & Hhosp) & _).
    fold later in Hhosp. rewrite Hhosp, marks_lookup.
    destruct (decide (devID ∈ ids')); done.
Qed.

(** The send after the notification of gpu-1 fails; gpu-1 stays marked. *)
Lemma failed_send_keeps_mark_witness :
  let run := ListAndWatch (stream_failing_at 2)
               [recv_unhealthyDev "gpu-0"; recv_unhealthyDev "gpu-1"; recv_done]
               example_world in
  hospital (this run.2) !! "gpu-1" = Some k8sDP.Unhealthy ∧
  ∃ first more,
    sent_in (ListAndWatch healthy_stream []) run.2 = first :: more ∧
    {| k8sDP.ID := "gpu-1"; k8sDP.Health := k8sDP.Unhealthy |} ∈ first.
Proof.
  destruct (failed_send_keeps_mark example_env (stream_failing_at 2) ["gpu-0"] "gpu-1"
              [recv_done] example_world (foreign "transport is closing"))
    as (_ & Hmark & Hlater).
  - reflexivity.
  - intros k Hk. simpl in Hk. assert (k = 0) as -> by lia. reflexivity.
  - reflexivity.
  - split; [exact Hmark|]. exact (Hlater [] healthy_stream []).
Defined.

(** * Further properties of the code *)

(** ** The constructor, case by case *)

Lemma register_devices_done devs conf : done (register_devices devs (fresh_plugin conf)) = chan_open.
Proof. by destruct (register_devices_frame devs (fresh_plugin conf)) as [_ ->]. Qed.

(** What the constructor returns and does once NVML is initialised. *)
Lemma NewSingularityDevicePlugin_after_Init env conf :
  exec_LookPath env = None → BuildConfig env = inl conf → nvml_Init env = None →
  NewSingularityDevicePlugin env =
    match nvml_GetDriverVersion env with
    | inr _ =>
        (Return (None, Some ErrUnableToLoad),
         [eff_nvml_Init; eff_close_done; eff_nvml_Shutdown])
    | inl _ =>
        match getDevices env with
        | inr err =>
            (Return (None, Some (fmt_Errorf
                       ("could not get available devices: " ++ Error err))),
             [eff_nvml_Init; eff_close_done; eff_nvml_Shutdown])
        | inl devs =>
            if decide (length devs = 0)
            then (Return (None, Some ErrNoGPUs), [eff_nvml_Init])
            else match monitorGPUs env (nvml.UUID <$> devs) with
                 | Some err =>
                     (Return (None, Some (fmt_Errorf
                                ("could not start GPU monitoring: " ++ Error err))),
                      [eff_nvml_Init; eff_close_done; eff_nvml_Shutdown])
                 | None =>
                     (Return (Some (register_devices devs (fresh_plugin conf)), None),
                      [eff_nvml_Init])
                 end
        end
    end.
Proof.
  intros Hpath Hconf Hinit. unfold NewSingularityDevicePlugin, construct, Shutdown.
  rewrite Hpath, Hconf, Hinit.
  destruct (nvml_GetDriverVersion env) as [v|e]; [|done].
  destruct (getDevices env) as [devs|e]; [|done].
  destruct (decide (length devs = 0)) as [Hz|Hnz]; [done|].
  go_run. destruct (monitorGPUs env (nvml.UUID <$> devs)); [|done].
  go_run. fold (fresh_plugin conf). rewrite register_devices_done. done.
Qed.


(** X2: the constructor returns a plugin exactly when every collaborator
    lets it through, the monitor being started on the UUIDs of the devices
    enumerated, in the order of the enumeration; the plugin returned is
    then the fresh struct, with the configured directory and an open
    shutdown signal, in which the enumerated devices have been
    registered. *)
Theorem NewSingularityDevicePlugin_succeeds_iff env dp :
  (NewSingularityDevicePlugin env).1 = Return (Some dp, None) ↔
  ∃ SingularityConfdir devs,
    collaborators_ready env SingularityConfdir devs ∧
    dp = register_devices devs (fresh_plugin SingularityConfdir).
Proof.
  split.
  - intros Hrun.
    destruct (exec_LookPath env) as [e|] eqn:Hpath.
    { unfold NewSingularityDevicePlugin in Hrun. rewrite Hpath in Hrun. by inversion Hrun. }
    destruct (BuildConfig env) as [conf|e] eqn:Hconf.
    2:{ unfold NewSingularityDevicePlugin in Hrun. rewrite Hpath, Hconf in Hrun.
        by inversion Hrun. }
    destruct (nvml_Init env) as [e|] eqn:Hinit.
    { unfold NewSingularityDevicePlugin in Hrun. rewrite Hpath, Hconf, Hinit in Hrun.
      by inversion Hrun. }
    rewrite (NewSingularityDevicePlugin_after_Init env conf Hpath Hconf Hinit) in Hrun.
    destruct (nvml_GetDriverVersion env) as [v|] eqn:Hv; [|by inversion Hrun].
    destruct (getDevices env) as [devs|] eqn:Hdevs; [|by inversion Hrun].
    destruct (decide (length devs = 0)) as [Hz|Hnz]; [by inversion Hrun|].
    destruct (monitorGPUs env (nvml.UUID <$> devs)) eqn:Hmon; [by inversion Hrun|].
    cbn [fst] in Hrun. injection Hrun as <-.
    exists conf, devs. split; [|done].
    repeat split; try done; [by exists v|by intros ->].
  - intros (conf & devs & (Hpath & Hconf & Hinit & [v Hv] & Hdevs & Hne & Hmon) & ->).
    rewrite (NewSingularityDevicePlugin_after_Init env conf Hpath Hconf Hinit).
    rewrite Hv, Hdevs, Hmon. rewrite decide_False; [done|].
    by destruct devs.
Qed.

(** X3: the constructor leaves one of three traces.  It does nothing to
    NVML exactly when the runtime is not found or the configuration cannot
    be read.  It undoes its work, closing the shutdown signal and then
    shutting NVML down, exactly when NVML was initialised and a later
    collaborator returned an error (the driver version, the enumeration,
    the start of the monitor).  Otherwise the trace is the sole call of
    [nvml.Init]. *)
Theorem NewSingularityDevicePlugin_NVML_lifecycle env :
  let tr := (NewSingularityDevicePlugin env).2 in
  (tr = [] ∨ tr = [eff_nvml_Init] ∨
   tr = [eff_nvml_Init; eff_close_done; eff_nvml_Shutdown]) ∧
  (tr = [] ↔ is_Some (exec_LookPath env) ∨ ∃ e, BuildConfig env = inr e) ∧
  (tr = [eff_nvml_Init; eff_close_done; eff_nvml_Shutdown] ↔
     exec_LookPath env = None ∧ (∃ c, BuildConfig env = inl c) ∧
     nvml_Init env = None ∧ fails_after_Init env).
Proof.
  cbn zeta. unfold fails_after_Init.
  destruct (exec_LookPath env) as [e|] eqn:Hpath.
  { unfold NewSingularityDevicePlugin. rewrite Hpath. cbn [snd].
    split; [by left|]. split; [split; [left; by eexists|done]|].
    split; [done|]. by intros ([=] & _). }
  destruct (BuildConfig env) as [conf|e] eqn:Hconf.
  2:{ unfold NewSingularityDevicePlugin. rewrite Hpath, Hconf. cbn [snd].
      split; [by left|]. split; [split; [right; by eexists|done]|].
      split; [done|]. by intros (_ & [c [=]] & _). }
  assert (Hearly : ¬ (is_Some (@None error) ∨ ∃ e, @inl string error conf = inr e)).
  { intros [[? [=]]|[? [=]]]. }
  destruct (nvml_Init env) as [e|] eqn:Hinit.
  { unfold NewSingularityDevicePlugin. rewrite Hpath, Hconf, Hinit. cbn [snd].
    split; [right; by left|]. split; [split; [done|by intros ?]|].
    split; [done|]. by intros (_ & _ & [=] & _). }
  rewrite (NewSingularityDevicePlugin_after_Init env conf Hpath Hconf Hinit).
  destruct (nvml_GetDriverVersion env) as [v|e] eqn:Hv.
  2:{ cbn [snd]. split; [right; by right|]. split; [split; [done|by intros ?]|].
      split; [|done]. intros _. repeat split; [by eexists|]. left. by eexists. }
  destruct (getDevices env) as [devs|e] eqn:Hdevs.
  2:{ cbn [snd]. split; [right; by right|]. split; [split; [done|by intros ?]|].
      split; [|done]. intros _. repeat split; [by eexists|]. right.
      split; [by eexists|]. left. by eexists. }
  destruct (decide (length devs = 0)) as [Hz|Hnz].
  { cbn [snd]. split; [right; by left|]. split; [split; [done|by intros ?]|].
    split; [done|]. intros (_ & _ & _ & [[? [=]]|[_ [[? [=]]|(devs' & e & [= <-] & Hne & _)]]]).
    by destruct devs. }
  destruct (monitorGPUs env (nvml.UUID <$> devs)) as [e|] eqn:Hmon.
  - cbn [snd]. split; [right; by right|]. split; [split; [done|by intros ?]|].
    split; [|done]. intros _. repeat split; [by eexists|]. right.
    split; [by eexists|]. right. exists devs, e. repeat split; [|done]. by intros ->.
  - cbn [snd]. split; [right; by left|]. split; [split; [done|by intros ?]|].
    split; [done|].
    intros (_ & _ & _ & [[? [=]]|[_ [[? [=]]|(devs' & e & [= <-] & _ & Hmon')]]]).
    by rewrite Hmon in Hmon'.
Qed.

(** X4: when NVML is initialised and reports a driver version but no
    device is enumerated, the constructor returns [ErrNoGPUs] with the
    shutdown signal left open and NVML left initialised: the deferred
    function tests the variable [err], which is nil on this path; whereas
    an enumeration that fails does close the signal and shut NVML down. *)
Theorem constructor_without_GPUs_keeps_NVML env SingularityConfdir v :
  exec_LookPath env = None →
  BuildConfig env = inl SingularityConfdir →
  nvml_Init env = None →
  nvml_GetDriverVersion env = inl v →
  (getDevices env = inl [] →
   NewSingularityDevicePlugin env = (Return (None, Some ErrNoGPUs), [eff_nvml_Init])) ∧
  (∀ e, getDevices env = inr e →
   NewSingularityDevicePlugin env =
     (Return (None, Some (fmt_Errorf ("could not get available devices: " ++ Error e))),
      [eff_nvml_Init; eff_close_done; eff_nvml_Shutdown])).
Proof.
  intros Hpath Hconf Hinit Hv.
  rewrite (NewSingularityDevicePlugin_after_Init env _ Hpath Hconf Hinit), Hv.
  split.
  - by intros ->.
  - by intros e ->.
Qed.

Lemma constructor_without_GPUs_keeps_NVML_witness :
  NewSingularityDevicePlugin env_without_GPUs
    = (Return (None, Some ErrNoGPUs), [eff_nvml_Init]) ∧
  (NewSingularityDevicePlugin env_enumeration_fails).2
    = [eff_nvml_Init; eff_close_done; eff_nvml_Shutdown].
Proof.
  split.
  - apply (constructor_without_GPUs_keeps_NVML env_without_GPUs
             "/usr/local/etc/singularity" "440.33.01"); reflexivity.
  - destruct (constructor_without_GPUs_keeps_NVML env_enumeration_fails
                "/usr/local/etc/singularity" "440.33.01") as [_ Hfail];
      [reflexivity..|].
    rewrite (Hfail (foreign "could not get device count") eq_refl). reflexivity.
Defined.

(** ** The registry the constructor builds *)

Lemma register_devices_cons dev devs dp :
  register_devices (dev :: devs) dp = register_devices devs (register_device dp dev).
Proof. reflexivity. Qed.

Lemma register_devices_lookup devs : ∀ dp id,
  devices (register_devices devs dp) !! id =
    match last (with_UUID id devs) with
    | Some dev => Some dev
    | None => devices dp !! id
    end.
Proof.
  induction devs as [|dev devs IH]; intros dp id; [done|].
  rewrite register_devices_cons, IH. unfold with_UUID. rewrite filter_cons.
  destruct (decide (nvml.UUID dev = id)) as [<-|Hne].
  - rewrite last_cons. destruct (last _); [done|]. cbn. apply lookup_insert_eq.
  - destruct (last _); [done|]. cbn. by apply lookup_insert_ne.
Qed.

Lemma with_UUID_elem_of id devs dev : dev ∈ with_UUID id devs ↔ nvml.UUID dev = id ∧ dev ∈ devs.
Proof. unfold with_UUID. apply (list_elem_of_filter (fun d => nvml.UUID d = id)). Qed.

(** With distinct UUIDs, a device is the only one of the enumeration that
    carries its UUID. *)
Lemma with_UUID_NoDup devs : ∀ dev,
  NoDup (nvml.UUID <$> devs) → dev ∈ devs → with_UUID (nvml.UUID dev) devs = [dev].
Proof.
  induction devs as [|d devs IH]; intros dev Hnd Hin; [by apply elem_of_nil in Hin|].
  cbn [fmap list_fmap] in Hnd. apply NoDup_cons in Hnd as [Hd Hnd].
  unfold with_UUID. rewrite filter_cons.
  apply elem_of_cons in Hin as [->|Hin].
  - rewrite decide_True by done. f_equal.
    apply elem_of_nil_inv. intros x Hx. apply list_elem_of_filter in Hx as [Hx Hxin].
    apply Hd. rewrite <- Hx. apply list_elem_of_fmap. by exists x.
  - rewrite decide_False; [by apply IH|].
    intros Heq. apply Hd. rewrite Heq. apply list_elem_of_fmap. by exists dev.
Qed.

Lemma constructed_devices_lookup env dp tr devs :
  NewSingularityDevicePlugin env = (Return (Some dp, None), tr) →
  getDevices env = inl devs →
  ∀ id, devices dp !! id = last (with_UUID id devs).
Proof.
  intros Hnew Hdevs id.
  apply NewSingularityDevicePlugin_success in Hnew
    as (conf & devs' & _ & _ & Hdevs' & _ & -> & _).
  rewrite Hdevs in Hdevs'. injection Hdevs' as <-.
  rewrite register_devices_lookup. cbn [devices].
  rewrite lookup_empty. by destruct (last _).
Qed.

(** X5: the registry of a constructed plugin holds, under each id, the
    last device of the enumeration that carries this UUID (a later device
    replaces an earlier one with the same UUID) and nothing under any
    other id; its health map holds Healthy under the same ids; so the keys
    of both maps are the UUIDs enumerated; and when the UUIDs are distinct
    every enumerated device is found under its own UUID. *)
Theorem constructed_registry env dp tr devs :
  NewSingularityDevicePlugin env = (Return (Some dp, None), tr) →
  getDevices env = inl devs →
  (∀ id, devices dp !! id = last (with_UUID id devs)) ∧
  (∀ id, hospital dp !! id = (fun _ => k8sDP.Healthy) <$> last (with_UUID id devs)) ∧
  dom (devices dp) = list_to_set (nvml.UUID <$> devs) ∧
  dom (hospital dp) = list_to_set (nvml.UUID <$> devs) ∧
  (NoDup (nvml.UUID <$> devs) → ∀ dev, dev ∈ devs → devices dp !! nvml.UUID dev = Some dev).
Proof.
  intros Hnew Hdevs.
  pose proof (NewSingularityDevicePlugin_registry _ _ _ Hnew) as (Hh & _ & _).
  pose proof (constructed_devices_lookup _ _ _ _ Hnew Hdevs) as Hlook.
  assert (Hdom : dom (devices dp) = list_to_set (nvml.UUID <$> devs)).
  { apply set_eq. intros id. rewrite elem_of_dom, Hlook, elem_of_list_to_set.
    rewrite list_elem_of_fmap. split.
    - intros [dev Hlast]. apply last_Some_elem_of, with_UUID_elem_of in Hlast as [<- Hin].
      by exists dev.
    - intros (dev & -> & Hin).
      destruct (last (with_UUID (nvml.UUID dev) devs)) as [d|] eqn:Hlast; [by eexists|].
      apply last_None in Hlast.
      assert (Hmem : dev ∈ with_UUID (nvml.UUID dev) devs) by (by apply with_UUID_elem_of).
      rewrite Hlast in Hmem. by apply elem_of_nil in Hmem. }
  split; [done|]. split; [|split; [done|split]].
  - intros id. by rewrite Hh, lookup_fmap, Hlook.
  - by rewrite Hh, dom_fmap_L.
  - intros Hnd dev Hin. by rewrite Hlook, with_UUID_NoDup.
Qed.

Lemma constructed_registry_witness :
  devices example_plugin !! "gpu-1" = Some gpu_1 ∧
  dom (hospital example_plugin) = {[ "gpu-0"; "gpu-1" ]}.
Proof.
  destruct (constructed_registry example_env example_plugin [eff_nvml_Init] [gpu_0; gpu_1])
    as (_ & _ & _ & Hdom & Hfind); [reflexivity|reflexivity|].
  split.
  - change "gpu-1" with (nvml.UUID gpu_1).
    apply Hfind; [apply (bool_decide_unpack _); vm_compute; exact I|].
    apply elem_of_cons. right. apply elem_of_cons. by left.
  - rewrite Hdom. reflexivity.
Defined.

(** ** From the enumeration to an allocation *)

Lemma append_devIDs_picked picked : ∀ acc w,
  (∀ dev, dev ∈ picked → devices (this w) !! nvml.UUID dev = Some dev) →
  append_devIDs (nvml.UUID <$> picked) acc w
    = (Return (acc ++ (rw_device <$> (nvml.Path <$> picked))), w).
Proof.
  induction picked as [|dev picked IH]; intros acc w Hfound.
  - simpl. by rewrite app_nil_r.
  - cbn [fmap list_fmap append_devIDs]. go_run.
    rewrite (Hfound dev) by (by left).
    rewrite IH by (intros d Hd; apply Hfound; by right).
    by rewrite <- app_assoc.
Qed.

Lemma append_responses_picked nvLibs nvBins nvDevs picks : ∀ acc w,
  Forall (fun picked =>
            ∀ dev, dev ∈ picked → devices (this w) !! nvml.UUID dev = Some dev) picks →
  append_responses nvDevs ((read_only_mount <$> nvLibs) ++ (read_only_mount <$> nvBins))
                   (request_for <$> picks) acc w
    = (Return (acc ++ (response_for nvLibs nvBins nvDevs <$> picks)), w).
Proof.
  induction picks as [|picked picks IH]; intros acc w Hfound.
  - simpl. by rewrite app_nil_r.
  - apply Forall_cons in Hfound as [Hpicked Hfound].
    cbn [fmap list_fmap append_responses request_for k8sDP.DevicesIDs]. unfold bind.
    rewrite (append_devIDs_picked picked _ w Hpicked), append_nvDevs_spec. cbn [app].
    rewrite IH by done. by rewrite <- app_assoc.
Qed.

(** X6: on a constructed plugin whose enumeration had distinct UUIDs, and
    at any later moment of its service, a batch that asks for enumerated
    devices by their UUIDs is answered, once the path resolver has
    answered, with exactly one entry per container, in order, whose device
    specs are the complementary devices followed by the device nodes of
    the devices asked for: what the enumeration registered is what an
    allocation hands out. *)
Theorem enumerated_devices_allocatable env dp tr devs cs picks nvLibs nvBins nvDevs :
  NewSingularityDevicePlugin env = (Return (Some dp, None), tr) →
  getDevices env = inl devs →
  NoDup (nvml.UUID <$> devs) →
  nvidia_Paths env (confDir dp) = inl (nvLibs, nvBins) →
  nvidia_Devices env = inl nvDevs →
  Forall (fun picked => Forall (fun dev => dev ∈ devs) picked) picks →
  let w := (run_calls env cs {| this := dp; trace := tr |}).2 in
  (Allocate env {| k8sDP.ContainerRequests := request_for <$> picks |} w).1
    = Return (Some {| k8sDP.ContainerResponses :=
                        response_for nvLibs nvBins nvDevs <$> picks |}, None).
Proof.
  intros Hnew Hdevs Hnd Hpaths Hcompl Hpicks w.
  pose proof (constructed_devices_lookup _ _ _ _ Hnew Hdevs) as Hlook.
  destruct (run_calls_evolves env cs {| this := dp; trace := tr |})
    as (Hd & Hc & _ & _).
  fold w in Hd, Hc. cbn [this] in Hd, Hc.
  unfold Allocate. go_run. rewrite Hc, Hpaths, Hcompl, !append_mounts_spec.
  cbn [app k8sDP.ContainerRequests].
  rewrite append_responses_picked; [done|].
  eapply Forall_impl; [exact Hpicks|]. intros picked Hpicked dev Hin.
  rewrite Forall_forall in Hpicked. rewrite Hd, Hlook, with_UUID_NoDup; [done..|].
  by apply Hpicked.
Qed.

Lemma enumerated_devices_allocatable_witness :
  (Allocate example_env
     {| k8sDP.ContainerRequests := request_for <$> [[gpu_1; gpu_0]; []; [gpu_0]] |}
     (run_calls example_env example_calls example_world).2).1
  = Return (Some {| k8sDP.ContainerResponses :=
       response_for ["/usr/lib/libcuda.so.1"] ["/usr/bin/nvidia-smi"] ["/dev/nvidiactl"]
         <$> [[gpu_1; gpu_0]; []; [gpu_0]] |}, None).
Proof.
  apply (enumerated_devices_allocatable example_env example_plugin [eff_nvml_Init]
           [gpu_0; gpu_1] example_calls).
  - reflexivity.
  - reflexivity.
  - apply (bool_decide_unpack _). vm_compute. exact I.
  - reflexivity.
  - reflexivity.
  - repeat constructor.
Defined.

(** ** The outcomes of Allocate *)

(** Once the path resolver has answered, Allocate either answers the whole
    batch or panics on a nil dereference; it returns no error. *)
Lemma Allocate_resolved env req w nvLibs nvBins nvDevs :
  nvidia_Paths env (confDir (this w)) = inl (nvLibs, nvBins) →
  nvidia_Devices env = inl nvDevs →
  (∃ resp, (Allocate env req w).1 = Return (Some resp, None)) ∨
  (Allocate env req w).1 = Panic nil_dereference.
Proof.
  intros Hpaths Hcompl.
  destruct (decide (Forall (fun r => Forall (fun id => id ∈ dom (devices (this w)))
                                            (k8sDP.DevicesIDs r))
                           (k8sDP.ContainerRequests req))) as [Hknown|Hunknown].
  - left. unfold Allocate. go_run. rewrite Hpaths, Hcompl, !append_mounts_spec. cbn [app].
    destruct (append_responses_known nvLibs nvBins nvDevs _ [] w Hknown)
      as (crs & _ & Hrun).
    destruct (append_responses _ _ _ _ w) as [[crs'|msg] w'];
      cbn [fst] in Hrun; [by eexists|discriminate].
  - right. apply not_Forall_Exists in Hunknown; [|apply _].
    apply Exists_exists in Hunknown as (r & Hr & Hids). cbn in Hids.
    apply not_Forall_Exists in Hids; [|apply _].
    apply Exists_exists in Hids as (devID & Hid & Hunk).
    by apply (Allocate_unknown_panics env req w nvLibs nvBins nvDevs r devID).
Qed.

(** X7: Allocate returns an error exactly when the path resolver fails,
    and it asks the resolver before it reads the request: a failure to
    find the library and binary paths comes first, then a failure to list
    the complementary devices; the error is a status with code Internal
    that wraps the resolver's error.  A batch with unknown ids therefore
    gets this error, not a panic, when the resolver fails. *)
Theorem Allocate_error_iff_resolver_fails env req w err :
  (Allocate env req w).1 = Return (None, Some err) ↔
  (∃ e, nvidia_Paths env (confDir (this w)) = inr e ∧
        err = status_Errorf codes.Internal ("could not search NVIDIA files: " ++ Error e)) ∨
  (∃ nvLibs nvBins e,
     nvidia_Paths env (confDir (this w)) = inl (nvLibs, nvBins) ∧
     nvidia_Devices env = inr e ∧
     err = status_Errorf codes.Internal
             ("could not search NVIDIA complementary devices: " ++ Error e)).
Proof.
  destruct (nvidia_Paths env (confDir (this w))) as [[nvLibs nvBins]|e] eqn:Hpaths.
  - destruct (nvidia_Devices env) as [nvDevs|e] eqn:Hcompl.
    + split.
      * intros Hrun.
        destruct (Allocate_resolved env req w nvLibs nvBins nvDevs Hpaths Hcompl)
          as [[resp Hresp]|Hpanic]; rewrite Hrun in *; discriminate.
      * intros [(e & [=] & _)|(l & b & e & _ & [=] & _)].
    + unfold Allocate. go_run. rewrite Hpaths, Hcompl. cbn [fst]. split.
      * intros [= <-]. right. by exists nvLibs, nvBins, e.
      * intros [(e' & [=] & _)|(l & b & e' & _ & [= <-] & ->)]. done.
  - unfold Allocate. go_run. rewrite Hpaths. cbn [fst]. split.
    + intros [= <-]. left. by exists e.
    + intros [(e' & [= <-] & ->)|(l & b & e' & [=] & _)]. done.
Qed.

(** X8: Allocate panics exactly when the path resolver has answered and
    some container request of the batch names an id that is not a key of
    the device map; the only panic it can raise is the nil dereference. *)
Theorem Allocate_panics_iff_unknown_id env req w :
  ((∃ msg, (Allocate env req w).1 = Panic msg) ↔
   (∃ nvLibs nvBins, nvidia_Paths env (confDir (this w)) = inl (nvLibs, nvBins)) ∧
   (∃ nvDevs, nvidia_Devices env = inl nvDevs) ∧
   (∃ r devID, r ∈ k8sDP.ContainerRequests req ∧ devID ∈ k8sDP.DevicesIDs r ∧
               devID ∉ dom (devices (this w)))) ∧
  (∀ msg, (Allocate env req w).1 = Panic msg → msg = nil_dereference).
Proof.
  assert (Hwhy : ∀ msg, (Allocate env req w).1 = Panic msg →
    msg = nil_dereference ∧
    (∃ nvLibs nvBins, nvidia_Paths env (confDir (this w)) = inl (nvLibs, nvBins)) ∧
    (∃ nvDevs, nvidia_Devices env = inl nvDevs) ∧
    (∃ r devID, r ∈ k8sDP.ContainerRequests req ∧ devID ∈ k8sDP.DevicesIDs r ∧
                devID ∉ dom (devices (this w)))).
  { intros msg Hpanic.
    destruct (nvidia_Paths env (confDir (this w))) as [[nvLibs nvBins]|e] eqn:Hpaths.
    2:{ unfold Allocate in Hpanic. revert Hpanic. go_run. by rewrite Hpaths. }
    destruct (nvidia_Devices env) as [nvDevs|e] eqn:Hcompl.
    2:{ unfold Allocate in Hpanic. revert Hpanic. go_run. by rewrite Hpaths, Hcompl. }
    destruct (Allocate_resolved env req w nvLibs nvBins nvDevs Hpaths Hcompl)
      as [[resp Hresp]|Hnil]; [rewrite Hresp in Hpanic; discriminate|].
    rewrite Hnil in Hpanic. injection Hpanic as <-. split; [done|].
    split; [by eexists _, _|]. split; [by eexists|].
    destruct (decide (Forall (fun r => Forall (fun id => id ∈ dom (devices (this w)))
                                              (k8sDP.DevicesIDs r))
                             (k8sDP.ContainerRequests req))) as [Hknown|Hunknown].
    - exfalso. revert Hnil. unfold Allocate. go_run.
      rewrite Hpaths, Hcompl, !append_mounts_spec. cbn [app].
      destruct (append_responses_known nvLibs nvBins nvDevs _ [] w Hknown)
        as (crs & _ & Hrun).
      destruct (append_responses _ _ _ _ w) as [[crs'|msg'] w'];
        cbn [fst] in Hrun; [done|discriminate].
    - apply not_Forall_Exists in Hunknown; [|apply _].
      apply Exists_exists in Hunknown as (r & Hr & Hids). cbn in Hids.
      apply not_Forall_Exists in Hids; [|apply _].
      apply Exists_exists in Hids as (devID & Hid & Hunk).
      by exists r, devID. }
  split; [split|].
  - intros [msg Hpanic]. by destruct (Hwhy msg Hpanic) as (_ & ? & ? & ?).
  - intros ((nvLibs & nvBins & Hpaths) & (nvDevs & Hcompl) & (r & devID & Hr & Hid & Hunk)).
    exists nil_dereference.
    by apply (Allocate_unknown_panics env req w nvLibs nvBins nvDevs r devID).
  - intros msg Hpanic. by destruct (Hwhy msg Hpanic) as (-> & _).
Qed.

(** ** What the watch handler touches *)

Lemma consumed_length srv cases : ∀ n,
  (length (consumed srv n cases) ≤ length (notified cases))%nat.
Proof.
  induction cases as [|c cases IH]; intros n; [done|].
  destruct c as [|devID]; cbn; [lia|].
  destruct (srv n); cbn; [lia|]. specialize (IH (S n)). unfold notified in IH. lia.
Qed.

(** X9: a watch handler writes nothing but the health map and does nothing
    to the outside but send: the device map, the configuration directory
    and the shutdown signal are as before, and the trace grows by sends
    only.  It sends at least the initial snapshot and at most one more
    message per notification offered; over a stream whose sends succeed,
    a handler that receives a list of notifications sends exactly one
    message after the initial one for each of them, repeated ids
    included. *)
Theorem ListAndWatch_only_sends srv cases w :
  let run := ListAndWatch srv cases w in
  let msgs := sent_in (ListAndWatch srv cases) w in
  devices (this run.2) = devices (this w) ∧
  confDir (this run.2) = confDir (this w) ∧
  done (this run.2) = done (this w) ∧
  trace run.2 = trace w ++ (eff_Send <$> msgs) ∧
  (1 ≤ length msgs ≤ 1 + length (notified cases))%nat ∧
  ((∀ n, srv n = None) →
   ∀ ids, length (sent_in (ListAndWatch srv (recv_unhealthyDev <$> ids)) w)
          = 1 + length ids).
Proof.
  cbn zeta. rewrite ListAndWatch_sent, ListAndWatch_world. cbn [this trace].
  destruct (marks_frame (applied srv cases) (this w)) as (-> & -> & ->).
  repeat split; try done.
  - cbn [length]. lia.
  - cbn [length]. rewrite snapshots_length. unfold applied.
    destruct (srv 0); [cbn; lia|]. pose proof (consumed_length srv cases 1). lia.
  - intros Hsrv ids. rewrite ListAndWatch_sent. cbn [length].
    by rewrite snapshots_length, applied_all.
Qed.

(** Scenario B of the design counted: three notifications, two of them for
    the same device, four messages. *)
Lemma ListAndWatch_only_sends_witness :
  length (sent_in (ListAndWatch healthy_stream
                     (recv_unhealthyDev <$> ["gpu-1"; "gpu-1"; "gpu-0"])) example_world)
  = 4.
Proof.
  destruct (ListAndWatch_only_sends healthy_stream [] example_world)
    as (_ & _ & _ & _ & _ & Hcount).
  exact (Hcount (fun n => eq_refl) ["gpu-1"; "gpu-1"; "gpu-0"]).
Defined.

(** ** The handler, choice by choice *)

Lemma watch_loop_app srv cases more : ∀ n w r w',
  watch_loop srv n cases w = (Return r, w') →
  watch_loop srv n (cases ++ more) w =
    match r with
    | returned _ => (Return r, w')
    | still_waiting => watch_loop srv (n + length cases) more w'
    end.
Proof.
  induction cases as [|c cases IH]; intros n w r w'.
  - intros [= <- <-]. cbn [app length]. by rewrite Nat.add_0_r.
  - destruct c as [|devID]; [by intros [= <- <-]|].
    cbn [app watch_loop length]. go_run. destruct (srv n).
    + by intros [= <- <-].
    + intros Hrun. rewrite (IH _ _ _ _ Hrun). destruct r; [|done].
      by rewrite Nat.add_succ_comm.
Qed.

(** X10: the handler takes the choices one at a time.  Once it has
    returned, with a nil error or with the status of a failed send,
    whatever is offered afterwards is not consumed: the outcome, the
    plugin and the trace are those of the run that ended there.  While it
    is still waiting in the select, it resumes on the later choices from
    the state it is in, the numbering of its sends going on. *)
Theorem ListAndWatch_resumes_or_stays_returned srv cases more w :
  (∀ err, (ListAndWatch srv cases w).1 = Return (returned err) →
     ListAndWatch srv (cases ++ more) w = ListAndWatch srv cases w) ∧
  ((ListAndWatch srv cases w).1 = Return still_waiting →
     ListAndWatch srv (cases ++ more) w =
       watch_loop srv (S (length cases)) more (ListAndWatch srv cases w).2).
Proof.
  unfold ListAndWatch. go_run. destruct (srv 0) as [e|]; [split; [done|intros [=]]|].
  destruct (watch_loop srv 1 cases
              {| this := this w; trace := trace w ++ [eff_Send (listK8sDevices (this w))] |})
    as [[r|msg] w'] eqn:Hrun.
  - rewrite (watch_loop_app _ _ more _ _ _ _ Hrun). cbn [fst snd]. split.
    + by intros err [= ->].
    + by intros [= ->].
  - destruct (watch_loop_returns srv cases 1
                {| this := this w; trace := trace w ++ [eff_Send (listK8sDevices (this w))] |})
      as [r Hr]. rewrite Hrun in Hr. discriminate.
Qed.

(** A handler that has seen the closed signal ignores a later
    notification; a waiting handler takes it and sends its second
    message. *)
Lemma ListAndWatch_resumes_or_stays_returned_witness :
  ListAndWatch healthy_stream ([recv_done] ++ [recv_unhealthyDev "gpu-0"]) example_world
    = ListAndWatch healthy_stream [recv_done] example_world ∧
  hospital (this (ListAndWatch healthy_stream ([] ++ [recv_unhealthyDev "gpu-0"])
                    example_world).2) !! "gpu-0" = Some k8sDP.Unhealthy.
Proof.
  split.
  - apply (ListAndWatch_resumes_or_stays_returned healthy_stream [recv_done]
             [recv_unhealthyDev "gpu-0"] example_world) with (err := None).
    reflexivity.
  - destruct (ListAndWatch_resumes_or_stays_returned healthy_stream []
                [recv_unhealthyDev "gpu-0"] example_world) as [_ Hresume].
    rewrite (Hresume eq_refl). reflexivity.
Defined.

(** ** Health over the life of the plugin *)

(** X11: no call ever makes a device healthy again or forgets it: through
    any run of calls a key of the health map stays a key, a device that is
    Unhealthy stays Unhealthy, and a status found afterwards is either the
    status held before or Unhealthy. *)
Theorem health_never_recovers env cs w id :
  let w' := (run_calls env cs w).2 in
  (hospital (this w) !! id = Some k8sDP.Unhealthy →
   hospital (this w') !! id = Some k8sDP.Unhealthy) ∧
  (is_Some (hospital (this w) !! id) → is_Some (hospital (this w') !! id)) ∧
  (∀ s, hospital (this w') !! id = Some s →
        s = k8sDP.Unhealthy ∨ hospital (this w) !! id = Some s).
Proof.
  cbn zeta. destruct (run_calls_evolves env cs w) as (_ & _ & (ids & _ & Hhosp) & _).
  rewrite Hhosp, marks_lookup. destruct (decide (id ∈ ids)) as [Hin|Hnin].
  - split; [done|]. split; [intros Hsome; by eexists|].
    intros s [= <-]. by left.
  - split; [done|]. split; [done|]. intros s Hs. by right.
Qed.

Lemma health_never_recovers_witness :
  hospital (this (run_calls example_env
                    [call_ListAndWatch healthy_stream [recv_unhealthyDev "gpu-0"; recv_done];
                     call_Shutdown]
                    (ListAndWatch healthy_stream [recv_unhealthyDev "gpu-1"]
                       example_world).2).2) !! "gpu-1" = Some k8sDP.Unhealthy.
Proof.
  apply (health_never_recovers example_env
           [call_ListAndWatch healthy_stream [recv_unhealthyDev "gpu-0"; recv_done];
            call_Shutdown]
           (ListAndWatch healthy_stream [recv_unhealthyDev "gpu-1"] example_world).2
           "gpu-1").
  reflexivity.
Defined.

(** ** How notifications compose *)

Lemma set_hospital_set_hospital h h' dp :
  set_hospital h (set_hospital h' dp) = set_hospital h dp.
Proof. reflexivity. Qed.

(** The notifications change the health map and nothing else. *)
Lemma marks_eta ids : ∀ dp, marks ids dp = set_hospital (hospital (marks ids dp)) dp.
Proof.
  induction ids as [|id ids IH]; intros dp; [by destruct dp|].
  rewrite marks_cons, IH. unfold mark_unhealthy at 2.
  by rewrite set_hospital_set_hospital.
Qed.

Lemma marks_same_set ids1 ids2 dp :
  (∀ id, id ∈ ids1 ↔ id ∈ ids2) → marks ids1 dp = marks ids2 dp.
Proof.
  intros Hsame. rewrite (marks_eta ids1), (marks_eta ids2). f_equal.
  apply map_eq. intros id. rewrite !marks_lookup.
  destruct (decide (id ∈ ids1)) as [H1|H1], (decide (id ∈ ids2)) as [H2|H2];
    try done; exfalso.
  - by apply H2, Hsame.
  - by apply H1, Hsame.
Qed.

(** X12: the plugin a handler leaves behind depends only on which devices
    were notified, not on the order of the notifications nor on how often
    each came: two handlers that start from the same plugin, over streams
    whose sends succeed, and receive notifications for the same ids end
    with the same plugin. *)
Theorem notification_order_irrelevant srv1 srv2 ids1 ids2 w :
  (∀ n, srv1 n = None) → (∀ n, srv2 n = None) →
  (∀ id, id ∈ ids1 ↔ id ∈ ids2) →
  this (ListAndWatch srv1 (recv_unhealthyDev <$> ids1) w).2
    = this (ListAndWatch srv2 (recv_unhealthyDev <$> ids2) w).2.
Proof.
  intros Hsrv1 Hsrv2 Hsame. rewrite !ListAndWatch_world. cbn [this].
  rewrite !applied_all by done. by apply marks_same_set.
Qed.

Lemma notification_order_irrelevant_witness :
  this (ListAndWatch healthy_stream
          (recv_unhealthyDev <$> ["gpu-1"; "gpu-0"; "gpu-1"]) example_world).2
  = this (ListAndWatch healthy_stream
            (recv_unhealthyDev <$> ["gpu-0"; "gpu-1"]) example_world).2.
Proof.
  apply (notification_order_irrelevant healthy_stream healthy_stream
           ["gpu-1"; "gpu-0"; "gpu-1"] ["gpu-0"; "gpu-1"] example_world).
  - reflexivity.
  - reflexivity.
  - intros id. rewrite !elem_of_cons, !elem_of_nil. tauto.
Defined.

(** X13: streams served one after the other add up: over streams whose
    sends succeed, a handler that receives some notifications followed by
    a second handler that receives others leaves the plugin that a single
    handler receiving all of them leaves, and the second handler opens
    with the snapshot of the health map the first one left. *)
Theorem successive_streams_compose srv1 srv2 srv ids1 ids2 w :
  (∀ n, srv1 n = None) → (∀ n, srv2 n = None) → (∀ n, srv n = None) →
  let w1 := (ListAndWatch srv1 (recv_unhealthyDev <$> ids1) w).2 in
  this (ListAndWatch srv2 (recv_unhealthyDev <$> ids2) w1).2
    = this (ListAndWatch srv (recv_unhealthyDev <$> (ids1 ++ ids2)) w).2 ∧
  ∃ first, sent_in (ListAndWatch srv2 (recv_unhealthyDev <$> ids2)) w1 !! 0 = Some first ∧
           snapshot_of (hospital (marks ids1 (this w))) first.
Proof.
  intros Hsrv1 Hsrv2 Hsrv w1. unfold w1.
  rewrite ListAndWatch_sent, !ListAndWatch_world. cbn [this].
  rewrite !applied_all by done. split; [by rewrite marks_app|].
  eexists. split; [done|]. apply listK8sDevices_snapshot.
Qed.

Lemma successive_streams_compose_witness :
  this (ListAndWatch healthy_stream (recv_unhealthyDev <$> ["gpu-0"])
          (ListAndWatch healthy_stream (recv_unhealthyDev <$> ["gpu-1"]) example_world).2).2
  = this (ListAndWatch healthy_stream (recv_unhealthyDev <$> (["gpu-1"] ++ ["gpu-0"]))
            example_world).2.
Proof.
  apply (successive_streams_compose healthy_stream healthy_stream healthy_stream
           ["gpu-1"] ["gpu-0"] example_world); reflexivity.
Defined.

(** ** The size of a snapshot *)

(** A constructed plugin knows at least one device. *)
Lemma constructed_devices_nonempty env dp tr :
  NewSingularityDevicePlugin env = (Return (Some dp, None), tr) → devices dp ≠ ∅.
Proof.
  intros Hnew.
  apply NewSingularityDevicePlugin_success in Hnew
    as (conf & devs & _ & _ & _ & Hne & -> & _).
  destruct devs as [|d devs _] using rev_ind; [done|].
  intros Hempty. apply (f_equal (lookup (nvml.UUID d))) in Hempty.
  rewrite register_devices_lookup, lookup_empty in Hempty.
  unfold with_UUID in Hempty. rewrite filter_app, filter_cons_True, filter_nil in Hempty by done.
  by rewrite last_snoc in Hempty.
Qed.

(** With notifications for known ids only, the keys of the two maps stay
    those of the constructed device map. *)
Lemma run_calls_known_keys env dp tr cs :
  NewSingularityDevicePlugin env = (Return (Some dp, None), tr) →
  Forall (fun c => Forall (fun id => id ∈ dom (devices dp)) (call_notified c)) cs →
  let w := (run_calls env cs {| this := dp; trace := tr |}).2 in
  devices (this w) = devices dp ∧ dom (hospital (this w)) = dom (devices dp).
Proof.
  intros Hnew Hknown w.
  apply NewSingularityDevicePlugin_registry in Hnew as (Hh & _ & _).
  destruct (run_calls_evolves env cs {| this := dp; trace := tr |})
    as (Hd & _ & (ids & Hsub & Hhosp) & _).
  fold w in Hd, Hhosp. cbn [this] in *. split; [done|].
  rewrite Hhosp, marks_dom, Hh, dom_fmap_L.
  apply set_eq. intros id. rewrite elem_of_union, elem_of_list_to_set.
  split; [|by left]. intros [?|Hid]; [done|].
  apply Hsub, list_elem_of_In, in_concat in Hid as (l & Hl & Hid).
  apply list_elem_of_In, list_elem_of_fmap in Hl as (c & -> & Hc).
  rewrite Forall_forall in Hknown. specialize (Hknown c Hc).
  rewrite Forall_forall in Hknown. by apply Hknown, list_elem_of_In.
Qed.

Lemma listK8sDevices_ID_set dp :
  list_to_set (k8sDP.ID <$> listK8sDevices dp) = dom (hospital dp).
Proof.
  apply set_eq. intros id.
  rewrite elem_of_list_to_set, listK8sDevices_IDs, list_elem_of_fmap, elem_of_dom. split.
  - intros ([k s] & -> & Hin). apply elem_of_map_to_list in Hin. by exists s.
  - intros [s Hs]. exists (id, s). split; [done|]. by apply elem_of_map_to_list.
Qed.

Lemma listK8sDevices_length dp : length (listK8sDevices dp) = size (hospital dp).
Proof. unfold listK8sDevices. by rewrite length_fmap, length_map_to_list. Qed.

(** X14: as long as the notifications carry known ids, every message of a
    watch stream lists the registered devices and nothing else: the ids of
    its entries are exactly the keys of the device map, it has as many
    entries as there are devices, and it is never empty, since a plugin is
    only constructed around at least one device. *)
Theorem snapshots_list_exactly_the_registry env dp tr cs srv cases :
  NewSingularityDevicePlugin env = (Return (Some dp, None), tr) →
  Forall (fun c => Forall (fun id => id ∈ dom (devices dp)) (call_notified c)) cs →
  Forall (fun id => id ∈ dom (devices dp)) (notified cases) →
  let w := (run_calls env cs {| this := dp; trace := tr |}).2 in
  ∀ devList, devList ∈ sent_in (ListAndWatch srv cases) w →
    list_to_set (k8sDP.ID <$> devList) = dom (devices dp) ∧
    length devList = size (devices dp) ∧
    (0 < length devList)%nat.
Proof.
  intros Hnew Hcs Hcases w devList Hmsg.
  destruct (run_calls_known_keys env dp tr cs Hnew Hcs) as [Hd Hkeys]. fold w in Hd, Hkeys.
  apply list_elem_of_lookup in Hmsg as [i Hi]. apply ListAndWatch_message in Hi as ->.
  assert (Hdom : dom (hospital (marks (take i (applied srv cases)) (this w)))
                 = dom (devices dp)).
  { rewrite marks_dom, Hkeys. apply set_eq. intros id.
    rewrite elem_of_union, elem_of_list_to_set. split; [|by left].
    intros [?|Hid]; [done|]. rewrite Forall_forall in Hcases. apply Hcases.
    apply (applied_notified srv cases). by apply (subseteq_take i). }
  assert (Hlen : length (listK8sDevices (marks (take i (applied srv cases)) (this w)))
                 = size (devices dp)).
  { rewrite listK8sDevices_length, <- (size_dom (D := gset string)), Hdom.
    apply (size_dom (D := gset string)). }
  split; [by rewrite listK8sDevices_ID_set|]. split; [done|].
  rewrite Hlen. pose proof (constructed_devices_nonempty _ _ _ Hnew) as Hne.
  apply map_size_non_empty_iff in Hne. lia.
Qed.

(** After a day of calls, the three messages of a stream that is notified
    twice of gpu-1 have two entries each. *)
Lemma snapshots_list_exactly_the_registry_witness :
  Forall (fun devList => length devList = 2)
         (sent_in (ListAndWatch healthy_stream
                     [recv_unhealthyDev "gpu-1"; recv_unhealthyDev "gpu-1"])
                  (run_calls example_env example_calls example_world).2).
Proof.
  apply Forall_forall. intros devList Hmsg.
  destruct (snapshots_list_exactly_the_registry example_env example_plugin [eff_nvml_Init]
              example_calls healthy_stream
              [recv_unhealthyDev "gpu-1"; recv_unhealthyDev "gpu-1"])
    with (devList := devList) as (_ & Hlen & _).
  - reflexivity.
  - apply (bool_decide_unpack _). vm_compute. exact I.
  - apply (bool_decide_unpack _). vm_compute. exact I.
  - exact Hmsg.
  - rewrite Hlen. reflexivity.
Defined.

(** ** Calls that only read *)

Lemma append_devIDs_same_devices devIDs : ∀ acc w w',
  devices (this w') = devices (this w) →
  (append_devIDs devIDs acc w').1 = (append_devIDs devIDs acc w).1.
Proof.
  induction devIDs as [|id ids IH]; intros acc w w' Hd; [done|].
  cbn [append_devIDs]. go_run. rewrite Hd.
  destruct (devices (this w) !! id); [by apply IH|done].
Qed.

Lemma append_responses_same_devices nvDevs nvidiaMounts reqs : ∀ acc w w',
  devices (this w') = devices (this w) →
  (append_responses nvDevs nvidiaMounts reqs acc w').1
    = (append_responses nvDevs nvidiaMounts reqs acc w).1.
Proof.
  induction reqs as [|r reqs IH]; intros acc w w' Hd; [done|].
  cbn [append_responses]. unfold bind.
  pose proof (append_devIDs_same_devices (k8sDP.DevicesIDs r) (append_nvDevs nvDevs [])
                w w' Hd) as Hsame.
  pose proof (append_devIDs_frame (k8sDP.DevicesIDs r) (append_nvDevs nvDevs []) w) as Hw.
  pose proof (append_devIDs_frame (k8sDP.DevicesIDs r) (append_nvDevs nvDevs []) w') as Hw'.
  destruct (append_devIDs _ _ w) as [[specs|msg] w1];
    destruct (append_devIDs _ _ w') as [[specs'|msg'] w1'];
    cbn [fst snd] in *; subst w1 w1'; try discriminate.
  - injection Hsame as ->. by apply IH.
  - by injection Hsame as ->.
Qed.

(** Allocate reads the device map and the configuration directory only. *)
Lemma Allocate_same_registry env req w w' :
  devices (this w') = devices (this w) → confDir (this w') = confDir (this w) →
  (Allocate env req w').1 = (Allocate env req w).1.
Proof.
  intros Hd Hc. unfold Allocate. go_run. rewrite Hc.
  destruct (nvidia_Paths env (confDir (this w))) as [[nvLibs nvBins]|err]; [|done].
  destruct (nvidia_Devices env) as [nvDevs|err]; [|done].
  pose proof (append_responses_same_devices nvDevs
    (append_mounts nvBins (append_mounts nvLibs [])) (k8sDP.ContainerRequests req) []
    w w' Hd) as Hloop.
  destruct (append_responses _ _ _ _ w) as [[crs|msg] w1];
    destruct (append_responses _ _ _ _ w') as [[crs'|msg'] w1'];
    cbn [fst] in *; try discriminate.
  - by injection Hloop as ->.
  - by injection Hloop as ->.
Qed.

(** A call that only reads, and does not panic, leaves no mark on a run. *)
Lemma run_call_reads env c w :
  mutating c = false →
  (∀ req, c = call_Allocate req → ∃ r, (Allocate env req w).1 = Return r) →
  run_call env c w = (Return tt, w).
Proof.
  intros Hread Hret. destruct c as [| |srv cases|req|]; try discriminate; try done.
  cbn [run_call]. unfold bind. destruct (Hret req eq_refl) as [r Hr].
  pose proof (Allocate_frame env req w) as Hw.
  destruct (Allocate env req w) as [[r'|msg] w']; cbn [fst snd] in *; subst w';
    [done|discriminate].
Qed.

(** X15: the calls that only read (GetDevicePluginOptions,
    PreStartContainer, and Allocate) never influence the others: if the
    Allocate requests of a run would not panic on the plugin the run
    starts from, then they do not panic wherever they stand in the run,
    and the run ends exactly as the run from which all reading calls have
    been removed, with the same plugin, the same outside effects and the
    same outcome. *)
Theorem reading_calls_leave_no_mark env cs : ∀ w,
  (∀ req, call_Allocate req ∈ cs → ∃ r, (Allocate env req w).1 = Return r) →
  run_calls env (filter (fun c => mutating c = true) cs) w = run_calls env cs w.
Proof.
  induction cs as [|c cs IH]; intros w Hret; [done|].
  destruct (mutating c) eqn:Hmut.
  - rewrite filter_cons_True by done. cbn [run_calls]. unfold bind.
    pose proof (run_call_evolves env c w) as (Hd & Hc & _ & _).
    destruct (run_call env c w) as [[[]|msg] w1]; [|done]. cbn [snd] in Hd, Hc.
    apply IH. intros req Hreq.
    rewrite (Allocate_same_registry env req w w1 Hd Hc). apply Hret. by right.
  - rewrite filter_cons_False by (by rewrite Hmut).
    cbn [run_calls]. unfold bind. rewrite (run_call_reads env c w Hmut).
    + apply IH. intros req Hreq. apply Hret. by right.
    + intros req ->. apply Hret. by left.
Qed.

Lemma reading_calls_leave_no_mark_witness :
  run_calls example_env
    [ call_ListAndWatch healthy_stream [recv_unhealthyDev "gpu-1"; recv_unhealthyDev "gpu-1"];
      call_ListAndWatch broken_stream [recv_unhealthyDev "gpu-0"];
      call_Shutdown ]
    example_world
  = run_calls example_env example_calls example_world.
Proof.
  apply (reading_calls_leave_no_mark example_env example_calls example_world).
  intros req Hreq. unfold example_calls in Hreq.
  repeat (apply elem_of_cons in Hreq as [Heq|Hreq]; [try discriminate|]).
  - injection Heq as ->. by eexists.
  - by apply elem_of_nil in Hreq.
Defined.

(** X16: the device map and the configuration directory are written once,
    by the constructor: no run of calls changes them.  Allocate reads
    nothing else of the plugin, so its outcome for a request is the same
    at every moment of the service: a device that has been marked
    Unhealthy is handed out as before, and so is any device after
    Shutdown. *)
Theorem Allocate_answers_do_not_age env cs req w :
  let w' := (run_calls env cs w).2 in
  devices (this w') = devices (this w) ∧
  confDir (this w') = confDir (this w) ∧
  (Allocate env req w').1 = (Allocate env req w).1.
Proof.
  cbn zeta. destruct (run_calls_evolves env cs w) as (Hd & Hc & _ & _).
  split; [done|]. split; [done|]. by apply Allocate_same_registry.
Qed.
